(** * Scene actor tables of the z64 exporter

    A shallow embedding of [fast64_internal/z64/exporter/scene/actors.py]:
    the transition-actor, entrance-actor and spawn tables, their builders
    from the scene graph, their C text and the parser [from_data].

    Python values are modelled as follows: [str] is [string], [int] is [Z],
    a position component of the transform resolver is a rational and a
    rotation component a binary-angle integer, an [Optional] field is an
    [option], a raised exception is the [Err] case of [result]. *)

From Stdlib Require Import ZArith QArith Qround List String Ascii Bool Lia
  Permutation Sorted Numbers.DecimalString Numbers.DecimalZ Numbers.DecimalPos.
Import ListNotations.

Set Warnings "-notation-for-abbreviation".

Local Open Scope list_scope.
Local Open Scope Z_scope.
Local Open Scope string_scope.

(** ** Exceptions *)

Inductive PyError : Type :=
| PluginError (msg : string)
| AssertionError
| KeyError
| ValueError.

Inductive result (A : Type) : Type :=
| Ok (a : A)
| Err (e : PyError).

Arguments Ok {A} a.
Arguments Err {A} e.

Definition bind {A B : Type} (m : result A) (k : A -> result B) : result B :=
  match m with
  | Ok a => k a
  | Err e => Err e
  end.

Notation "x <- m ;; k" := (bind m (fun x => k))
  (at level 61, m at next level, right associativity).

(** [mapM f l] runs [f] over [l] from left to right and stops at the first
    exception, like a [for] loop that appends to a list. *)
Fixpoint mapM {A B : Type} (f : A -> result B) (l : list A) : result (list B) :=
  match l with
  | [] => Ok []
  | a :: l' => b <- f a ;; bs <- mapM f l' ;; Ok (b :: bs)
  end.

(** ** The Python built-ins the module uses *)

Module Py.

(** The line feed, written [\n] in the source. *)
Definition nl : string := String (ascii_of_nat 10) "".

(** [str.split(sep)] for a non-empty [sep]: the text is scanned from the
    left, [skip] counts the characters of a separator still to be passed
    over and [cur] is the field read so far. *)
Fixpoint split_go (sep : string) (skip : nat) (cur s : string) : list string :=
  match s with
  | EmptyString => [cur]
  | String c s' =>
      match skip with
      | S k => split_go sep k cur s'
      | O =>
          if String.prefix sep s
          then cur :: split_go sep (Nat.pred (String.length sep)) "" s'
          else split_go sep 0 (cur ++ String c "") s'
      end
  end.

Definition split (sep s : string) : list string := split_go sep 0 "" s.

(** [sep.join(l)] *)
Definition join (sep : string) (l : list string) : string := String.concat sep l.

(** [s.replace(old, new)] for a non-empty [old]. *)
Definition replace (old new s : string) : string := join new (split old s).

Definition endswith (suffix s : string) : bool :=
  (String.length suffix <=? String.length s)%nat
  && String.eqb
       (String.substring (String.length s - String.length suffix)
          (String.length suffix) s)
       suffix.

Definition removeprefix (p s : string) : string :=
  if String.prefix p s
  then String.substring (String.length p) (String.length s - String.length p) s
  else s.

Definition removesuffix (x s : string) : string :=
  if endswith x s
  then String.substring 0 (String.length s - String.length x) s
  else s.

(** [sub in s] *)
Fixpoint contains (sub s : string) : bool :=
  match s with
  | EmptyString => String.prefix sub ""
  | String _ s' => String.prefix sub s || contains sub s'
  end.

(** [str(n)] and [f"{n}"] for an [int]. *)
Definition str_int (n : Z) : string := NilZero.string_of_int (Z.to_int n).

(** [len(l)] as a Python [int]. *)
Definition len {A : Type} (l : list A) : Z := Z.of_nat (List.length l).

(** [list(range(n))] *)
Definition range (n : nat) : list Z := map Z.of_nat (seq 0 n).

(** [round(x)] with one argument: the nearest integer, ties to even. *)
Definition round (x : Q) : Z :=
  let f := Qnum x / Zpos (Qden x) in
  let r := Qnum x mod Zpos (Qden x) in
  match 2 * r ?= Zpos (Qden x) with
  | Lt => f
  | Gt => f + 1
  | Eq => if Z.even f then f else f + 1
  end.

Fixpoint spaces (n : nat) : string :=
  match n with
  | O => ""
  | S k => String " " (spaces k)
  end.

(** [f"{s:w}"] for a [str]: left-aligned in a field of width [w]. *)
Definition ljust (w : nat) (s : string) : string :=
  s ++ spaces (w - String.length s).

(** [zfill]: digits padded with zeros on the left up to width [w]. *)
Fixpoint zeros (n : nat) : string :=
  match n with
  | O => ""
  | S k => String "0" (zeros k)
  end.

Definition zfill (w : nat) (s : string) : string :=
  zeros (w - String.length s) ++ s.

(** [f"{x:.3f}"]: [x] rounded to three decimals (ties to even on the exact
    value), the sign kept when [x] is below zero. *)
Definition format_3f (x : Q) : string :=
  let n := Z.abs (round (x * 1000)) in
  (if Qlt_le_dec x 0 then "-" else "")
  ++ str_int (n / 1000) ++ "." ++ zfill 3 (str_int (n mod 1000)).

(** [l.remove(x)] on a list that holds [x]: the first occurrence goes. *)
Fixpoint remove_first (x : string) (l : list string) : list string :=
  match l with
  | [] => []
  | y :: l' => if String.eqb y x then l' else y :: remove_first x l'
  end.

(** The loop
[[
    for p in params:
        if p == "":
            params.remove(p)
]]
    A [for] over a list reads position [i], then [i + 1], and so on, on the
    list as it is at that moment, and stops once [i] is past the end. *)
Fixpoint remove_empty_loop (fuel i : nat) (params : list string) : list string :=
  match fuel with
  | O => params
  | S fuel' =>
      match nth_error params i with
      | None => params
      | Some p =>
          if String.eqb p ""
          then remove_empty_loop fuel' (S i) (remove_first p params)
          else remove_empty_loop fuel' (S i) params
      end
  end.

Definition remove_empty (params : list string) : list string :=
  remove_empty_loop (S (List.length params)) 0 params.

(** [sorted(l, key=key)] and [l.sort(key=key)]: the sort is stable, an
    element goes in front of the first one whose key is not smaller. *)
Fixpoint insert_by {A : Type} (key : A -> Z) (x : A) (l : list A) : list A :=
  match l with
  | [] => [x]
  | y :: l' => if (key x <=? key y)%Z then x :: l else y :: insert_by key x l'
  end.

Fixpoint sorted_by {A : Type} (key : A -> Z) (l : list A) : list A :=
  match l with
  | [] => []
  | x :: l' => insert_by key x (sorted_by key l')
  end.

(** A [dict] in insertion order. *)
Definition dict (K V : Type) : Type := list (K * V).

Fixpoint dict_get {K V : Type} (eqb : K -> K -> bool) (k : K) (d : dict K V) : option V :=
  match d with
  | [] => None
  | (k', v) :: d' => if eqb k' k then Some v else dict_get eqb k d'
  end.

(** [d[k] = v]: a present key keeps its place and takes the new value, a new
    key goes to the end. *)
Fixpoint dict_set {K V : Type} (eqb : K -> K -> bool) (k : K) (v : V) (d : dict K V) : dict K V :=
  match d with
  | [] => [(k, v)]
  | (k', v') :: d' =>
      if eqb k' k then (k, v) :: d' else (k', v') :: dict_set eqb k v d'
  end.

End Py.

(** ** The scene graph handed over by the host

    The objects of the 3D editor are read, never built, by this module.  An
    object carries the properties that [actors.py] reads; [oid] stands for
    the identity of the Python object, which is what a [dict] keyed by
    objects compares.  [children_recursive] is the host's list of all the
    descendants of the object, in the host's order. *)

Module bpy.

Class Blender : Type := {
  HeaderSettings : Type;
  Matrix : Type
}.

Section SceneGraph.
Context {B : Blender}.

Record OOTRoomHeaderProperty : Type := {
  roomIndex : Z
}.

Record OOTActorProperty : Type := {
  actor_id : string;
  actor_id_custom : string;
  params : string;
  params_custom : string;
  headerSettings : HeaderSettings
}.

#[local] Unset Elimination Schemes.

(** [entrance_actor] is the [actor] property of the entrance property
    group (the transition property group has an [actor] of its own). *)
Inductive Object : Type := mkObject {
  oid : nat;
  type : string;
  ootEmptyType : string;
  ootRoomHeader : OOTRoomHeaderProperty;
  ootTransitionActorProperty : OOTTransitionActorProperty;
  ootEntranceProperty : OOTEntranceProperty;
  children_recursive : list Object
}
with OOTTransitionActorProperty : Type := mkTransitionActorProperty {
  actor : OOTActorProperty;
  isRoomTransition : bool;
  fromRoom : option Object;
  toRoom : option Object
}
with OOTEntranceProperty : Type := mkEntranceProperty {
  entrance_actor : OOTActorProperty;
  customActor : bool;
  tiedRoom : option Object;
  spawnIndex : Z
}.

#[local] Set Elimination Schemes.

End SceneGraph.

End bpy.

Import bpy.

(** ** What the module imports

    [indent], [hexOrDecInt], [getEvalParams], [Utility], [game_data] and the
    scene settings live in other files; they are taken as given. *)

Class Host {B : Blender} : Type := {
  indent : string;
  hexOrDecInt : string -> result Z;
  getEvalParams : string -> result string;
  (** [game_data.z64.actors.actorsByID[key].name], [None] on a missing key *)
  actorsByID : string -> option string;
  (** [bpy.context.scene.fast64.oot.use_new_actor_panel] *)
  use_new_actor_panel : bool;
  isCurrentHeaderValid : HeaderSettings -> Z -> bool;
  (** [Utility.getConvertedTransform]: the position and the rotation, the
      latter in binary-angle units ([0x8000] is a half turn) *)
  getConvertedTransform :
    Matrix -> Object -> Object -> bool -> (Q * Q * Q) * (Z * Z * Z);
  getPropValue : OOTTransitionActorProperty -> string -> string;
  (** [getObjectList(objList, objType, emptyType)]: the objects of [objList]
      of the given type and empty-type, in the order the helper settles *)
  getObjectList : list Object -> string -> string -> list Object
}.

(** ** Transition actors *)

Module TransitionActor.

(** The fields of [Actor] and those [TransitionActor] adds; the ones the
    dataclass declares [Optional] start as [None]. *)
Record t : Type := mk {
  name : string;
  id : string;
  pos : list Q;
  rot : string;
  params : string;
  isRoomTransition : option bool;
  roomFrom : option Z;
  roomTo : option Z;
  cameraFront : option string;
  cameraBack : option string
}.

Definition with_name (n : string) (a : t) : t :=
  mk n (id a) (pos a) (rot a) (params a) (isRoomTransition a)
     (roomFrom a) (roomTo a) (cameraFront a) (cameraBack a).

(** [f"{room}"] and [f"{cam}"] of an [Optional] value *)
Definition fmt_room (room : option Z) : string :=
  match room with
  | Some n => Py.str_int n
  | None => "None"
  end.

Definition fmt_cam (cam : option string) : string :=
  match cam with
  | Some s => s
  | None => "None"
  end.

Definition infoDescs : list string :=
  ["Room & Cam Index (Front, Back)"; "Actor ID"; "Position"; "Rotation Y";
   "Parameters"].

Section WithHost.
Context {B : Blender} {H : Host}.

Definition roomData (a : t) : string :=
  let sides := [(roomFrom a, cameraFront a); (roomTo a, cameraBack a)] in
  "{ "
  ++ Py.join ", "
       (map (fun side => fmt_room (fst side) ++ ", " ++ fmt_cam (snd side)) sides)
  ++ " }".

Definition posData (a : t) : string :=
  "{ " ++ Py.join ", " (map (fun p => Py.str_int (Py.round p)) (pos a)) ++ " }".

Definition actorInfos (a : t) : list string :=
  [roomData a; id a; posData a; rot a; params a].

(** The text after the optional name comment. *)
Definition entryBody (a : t) : string :=
  ("{" ++ Py.nl)
  ++ Py.join ("," ++ Py.nl)
       (map (fun di => (indent ++ indent) ++ "/* " ++ Py.ljust 30 (fst di)
                        ++ " */ " ++ snd di)
            (combine infoDescs (actorInfos a)))
  ++ (Py.nl ++ indent ++ "}," ++ Py.nl).

(** Returns a single transition actor entry *)
Definition getEntryC (a : t) : string :=
  (if String.eqb (name a) "" then ""
   else indent ++ "// " ++ name a ++ Py.nl ++ indent)
  ++ entryBody a.

End WithHost.

End TransitionActor.

(** The rotation text of one component: binary-angle units are turned into
    degrees and printed with three decimals.  [180 / 0x8000] is a power of
    two times 45, so on an integer below [2^47] the floating-point product
    of the source is the exact rational. *)
Definition deg_to_binang (r : Z) : string :=
  "DEG_TO_BINANG(" ++ Py.format_3f (inject_Z r * (180 # 32768)) ++ ")".

Section ActorName.
Context {B : Blender} {H : Host}.

(** The display name of both builders. *)
Definition actor_name (actorProp : OOTActorProperty) : result string :=
  if negb (String.eqb (actor_id actorProp) "Custom")
  then
    match actorsByID (actor_id actorProp) with
    | Some n =>
        Ok (Py.replace (" - " ++ Py.removeprefix "ACTOR_" (actor_id actorProp)) "" n)
    | None => Err KeyError
    end
  else Ok "Custom Actor".

(** The guard of both loops. *)
Definition is_exported (actorProp : OOTActorProperty) (headerIndex : Z) : bool :=
  isCurrentHeaderValid (headerSettings actorProp) headerIndex
  && negb (String.eqb (actor_id actorProp) "None").

End ActorName.

(** [CData]: the text for the header file and for the source file. *)
Record CData : Type := {
  header : string;
  source : string
}.

Module SceneTransitionActors.

Record t : Type := mk {
  name : string;
  entries : list TransitionActor.t
}.

Section WithHost.
Context {B : Blender} {H : Host}.

(** The end of the body of the loop of [from_data]: the assertion on the
    number of fields and the assignments from the fields. *)
Definition parse_fields (params : list string) : result TransitionActor.t :=
  match params with
  | [p0; p1; p2; p3; p4; p5; p6; p7; p8; p9] =>
      x <- hexOrDecInt p5 ;;
      y <- hexOrDecInt p6 ;;
      z <- hexOrDecInt p7 ;;
      rot <- (if Py.contains "DEG_TO_BINANG" p8 then getEvalParams p8 else Ok p8) ;;
      roomFrom <- hexOrDecInt p0 ;;
      roomTo <- hexOrDecInt p2 ;;
      Ok {| TransitionActor.name := "(unset)";
            TransitionActor.id := p4;
            TransitionActor.pos := [inject_Z x; inject_Z y; inject_Z z];
            TransitionActor.rot := rot;
            TransitionActor.params := p9;
            TransitionActor.isRoomTransition := Some (negb (roomFrom =? roomTo)%Z);
            TransitionActor.roomFrom := Some roomFrom;
            TransitionActor.roomTo := Some roomTo;
            TransitionActor.cameraFront := Some p1;
            TransitionActor.cameraBack := Some p3 |}
  | _ => Err AssertionError (* assert len(params) == 10 *)
  end.

(** The body of the loop of [from_data] for one non-empty [entry]. *)
Definition parse_entry (entry : string) : result TransitionActor.t :=
  let params := Py.split "," (Py.replace "}" "" (Py.replace "{" "" entry)) in
  (* trailing commas *)
  let params := Py.remove_empty params in
  parse_fields params.

Definition split_entries (raw_data : string) (not_zapd_assets : bool) : list string :=
  if not_zapd_assets
  then Py.split ",},{" (Py.removesuffix ",}," (Py.removeprefix "{" raw_data))
  else Py.split "}," raw_data.

Definition from_data (raw_data : string) (not_zapd_assets : bool) : result t :=
  let entries := split_entries raw_data not_zapd_assets in
  actor_list <-
    mapM parse_entry (filter (fun entry => negb (String.eqb entry "")) entries) ;;
  Ok (mk "(unset)" actor_list).

(** [actorToRoom]: every transition actor below a room, keyed by the
    identity of the actor object; a later room overwrites an earlier one. *)
Definition actorToRoom_of (roomObjList : list Object) : Py.dict nat Object :=
  fold_left
    (fun d obj =>
       fold_left
         (fun d childObj =>
            if String.eqb (type childObj) "EMPTY"
               && String.eqb (ootEmptyType childObj) "Transition Actor"
            then Py.dict_set Nat.eqb (oid childObj) obj d
            else d)
         (children_recursive obj) d)
    roomObjList [].

(** [actorToRoom[obj].ootRoomHeader.roomIndex] *)
Definition owning_room_index (actorToRoom : Py.dict nat Object) (obj : Object) : result Z :=
  match Py.dict_get Nat.eqb (oid obj) actorToRoom with
  | Some room => Ok (roomIndex (ootRoomHeader room))
  | None => Err KeyError
  end.

(** [actorObjList.sort(key=...)]: the keys are computed first, one per
    object, then the list is sorted on them. *)
Definition sort_by_room (actorToRoom : Py.dict nat Object) (actorObjList : list Object)
  : result (list Object) :=
  keys <- mapM (owning_room_index actorToRoom) actorObjList ;;
  Ok (map snd (Py.sorted_by fst (combine keys actorObjList))).

Definition missing_room : PyError :=
  PluginError "ERROR: Missing room empty object assigned to transition.".

(** The body of the loop of [new]: [None] when the object is passed over. *)
Definition new_entry (actorToRoom : Py.dict nat Object) (sceneObj : Object)
    (transform : Matrix) (headerIndex : Z) (obj : Object)
  : result (option TransitionActor.t) :=
  let transActorProp := ootTransitionActorProperty obj in
  let actorProp := actor transActorProp in
  if is_exported actorProp headerIndex then
    let '(pos, rot) := getConvertedTransform transform sceneObj obj true in
    indices <-
      (if bpy.isRoomTransition transActorProp then
         match fromRoom transActorProp, toRoom transActorProp with
         | Some fromRoom, Some toRoom =>
             Ok (roomIndex (ootRoomHeader fromRoom), roomIndex (ootRoomHeader toRoom))
         | _, _ =>
             Err missing_room
         end
       else
         i <- owning_room_index actorToRoom obj ;; Ok (i, i)) ;;
    let front := (fst indices, getPropValue transActorProp "cameraTransitionFront") in
    let back := (snd indices, getPropValue transActorProp "cameraTransitionBack") in
    n <- actor_name actorProp ;;
    Ok (Some
          {| TransitionActor.name := n;
             TransitionActor.id :=
               if String.eqb (actor_id actorProp) "Custom"
               then actor_id_custom actorProp else actor_id actorProp;
             TransitionActor.pos := [fst (fst pos); snd (fst pos); snd pos];
             TransitionActor.rot := deg_to_binang (snd (fst rot));
             TransitionActor.params :=
               if use_new_actor_panel && negb (String.eqb (actor_id actorProp) "Custom")
               then bpy.params actorProp else params_custom actorProp;
             TransitionActor.isRoomTransition := None;
             TransitionActor.roomFrom := Some (fst front);
             TransitionActor.cameraFront := Some (snd front);
             TransitionActor.roomTo := Some (fst back);
             TransitionActor.cameraBack := Some (snd back) |})
  else Ok None.

(** The [for] loop of [new] over the sorted objects. *)
Fixpoint new_loop (actorToRoom : Py.dict nat Object) (sceneObj : Object)
    (transform : Matrix) (headerIndex : Z) (objs : list Object)
  : result (list TransitionActor.t) :=
  match objs with
  | [] => Ok []
  | obj :: objs' =>
      e <- new_entry actorToRoom sceneObj transform headerIndex obj ;;
      es <- new_loop actorToRoom sceneObj transform headerIndex objs' ;;
      Ok (match e with Some a => a :: es | None => es end)
  end.

Definition new (name : string) (sceneObj : Object) (transform : Matrix)
    (headerIndex : Z) : result t :=
  let roomObjList := getObjectList (children_recursive sceneObj) "EMPTY" "Room" in
  let actorToRoom := actorToRoom_of roomObjList in
  let actorObjList :=
    getObjectList (children_recursive sceneObj) "EMPTY" "Transition Actor" in
  actorObjList <- sort_by_room actorToRoom actorObjList ;;
  entries <- new_loop actorToRoom sceneObj transform headerIndex actorObjList ;;
  Ok (mk name entries).

(** Returns the transition actor list scene command *)
Definition getCmd (self : t) : string :=
  indent ++ "SCENE_CMD_TRANSITION_ACTOR_LIST(" ++ Py.str_int (Py.len (entries self))
  ++ ", " ++ name self ++ ")," ++ Py.nl.

(** Returns the transition actor array *)
Definition getC (self : t) : CData :=
  let listName := "TransitionActorEntry " ++ name self in
  {| header := "extern " ++ listName ++ "[];" ++ Py.nl;
     source := (listName ++ "[]" ++ " = {" ++ Py.nl)
               ++ Py.join Py.nl (map TransitionActor.getEntryC (entries self))
               ++ "};" ++ Py.nl ++ Py.nl |}.

End WithHost.

End SceneTransitionActors.

(** ** Entrance actors *)

Module EntranceActor.

Record t : Type := mk {
  name : string;
  id : string;
  pos : list Q;
  rot : string;
  params : string;
  roomIndex : option Z;
  spawnIndex : option Z
}.

Definition fmt_index (i : option Z) : string :=
  match i with
  | Some n => Py.str_int n
  | None => "None"
  end.

Section WithHost.
Context {B : Blender} {H : Host}.

(** Returns a single spawn entry *)
Definition getEntryC (self : t) : string :=
  indent ++ "{ " ++ (fmt_index (spawnIndex self) ++ ", " ++ fmt_index (roomIndex self))
  ++ " }," ++ Py.nl.

End WithHost.

End EntranceActor.

Module SceneEntranceActors.

Record t : Type := mk {
  name : string;
  entries : list EntranceActor.t
}.

Section WithHost.
Context {B : Blender} {H : Host}.

Definition missing_room : PyError :=
  PluginError "ERROR: Missing room empty object assigned to the entrance.".

Definition repeated_index (i : Z) : PyError :=
  PluginError ("ERROR: Repeated Spawn Index: " ++ Py.str_int i).

Definition not_consecutive : PyError :=
  PluginError "ERROR: The spawn indices are not consecutive!".

(** The body of the loop of [new] up to the entry itself: [None] when the
    object is passed over. *)
Definition new_entry (sceneObj : Object) (transform : Matrix) (headerIndex : Z)
    (obj : Object) : result (option EntranceActor.t) :=
  let entranceProp := ootEntranceProperty obj in
  let actorProp := entrance_actor entranceProp in
  if is_exported actorProp headerIndex then
    let '(pos, rot) := getConvertedTransform transform sceneObj obj true in
    n <- actor_name actorProp ;;
    room <-
      match tiedRoom entranceProp with
      | Some room => Ok (bpy.roomIndex (ootRoomHeader room))
      | None => Err missing_room
      end ;;
    Ok (Some
          {| EntranceActor.name := n;
             EntranceActor.id :=
               if negb (customActor entranceProp)
               then "ACTOR_PLAYER" else actor_id_custom actorProp;
             EntranceActor.pos := [fst (fst pos); snd (fst pos); snd pos];
             EntranceActor.rot :=
               Py.join ", "
                 (map deg_to_binang [fst (fst rot); snd (fst rot); snd rot]);
             EntranceActor.params :=
               if use_new_actor_panel && negb (customActor entranceProp)
               then bpy.params actorProp else params_custom actorProp;
             EntranceActor.roomIndex := Some room;
             EntranceActor.spawnIndex := Some (bpy.spawnIndex entranceProp) |})
  else Ok None.

(** The [for] loop of [new]: [entranceActorFromIndex] is threaded through. *)
Fixpoint collect (sceneObj : Object) (transform : Matrix) (headerIndex : Z)
    (objs : list Object) (entranceActorFromIndex : Py.dict Z EntranceActor.t)
  : result (Py.dict Z EntranceActor.t) :=
  match objs with
  | [] => Ok entranceActorFromIndex
  | obj :: objs' =>
      e <- new_entry sceneObj transform headerIndex obj ;;
      match e with
      | None => collect sceneObj transform headerIndex objs' entranceActorFromIndex
      | Some entranceActor =>
          let i := bpy.spawnIndex (ootEntranceProperty obj) in
          match Py.dict_get Z.eqb i entranceActorFromIndex with
          | None =>
              collect sceneObj transform headerIndex objs'
                (Py.dict_set Z.eqb i entranceActor entranceActorFromIndex)
          | Some _ => Err (repeated_index i)
          end
      end
  end.

(** The end of [new]: the items are sorted, the keys compared with
    [range(len(...))].  The keys of a [dict] differ from one another, so the
    sort of the items never has to compare two entries: it is a sort on the
    keys. *)
Definition finish (name : string) (entranceActorFromIndex : Py.dict Z EntranceActor.t)
  : result t :=
  let entranceActorFromIndex := Py.sorted_by fst entranceActorFromIndex in
  if list_eq_dec Z.eq_dec (map fst entranceActorFromIndex)
       (Py.range (List.length entranceActorFromIndex))
  then Ok (mk name (map snd entranceActorFromIndex))
  else Err not_consecutive.

(** Returns the entrance actor list based on empty objects with the type
    'Entrance' *)
Definition new (name : string) (sceneObj : Object) (transform : Matrix)
    (headerIndex : Z) : result t :=
  let actorObjList := getObjectList (children_recursive sceneObj) "EMPTY" "Entrance" in
  entranceActorFromIndex <- collect sceneObj transform headerIndex actorObjList [] ;;
  finish name entranceActorFromIndex.

(** Returns the spawn list scene command *)
Definition getCmd (self : t) : string :=
  let name := if (0 <? Py.len (entries self))%Z then name self else "NULL" in
  indent ++ "SCENE_CMD_SPAWN_LIST(" ++ Py.str_int (Py.len (entries self)) ++ ", "
  ++ name ++ ")," ++ Py.nl.

End WithHost.

End SceneEntranceActors.

Module SceneSpawns.

Record t : Type := mk {
  name : string;
  entries : list EntranceActor.t
}.

Section WithHost.
Context {B : Blender} {H : Host}.

(** Returns the entrance list scene command *)
Definition getCmd (self : t) : string :=
  indent ++ "SCENE_CMD_ENTRANCE_LIST("
  ++ (if (0 <? Py.len (entries self))%Z then name self else "NULL")
  ++ ")," ++ Py.nl.

(** Returns the spawn array *)
Definition getC (self : t) : CData :=
  let listName := "Spawn " ++ name self in
  {| header := "extern " ++ listName ++ "[];" ++ Py.nl;
     source := (listName ++ "[]" ++ " = {" ++ Py.nl)
               ++ (indent ++ "// { Spawn Actor List Index, Room Index }" ++ Py.nl)
               ++ Py.join "" (map EntranceActor.getEntryC (entries self))
               ++ "};" ++ Py.nl ++ Py.nl |}.

End WithHost.

End SceneSpawns.

(** ** Notions the statements below are written with *)

Section Markers.
Context {B : Blender} {H : Host}.

(** The guard of the loop of [SceneEntranceActors.new] on an object. *)
Definition entrance_exported (headerIndex : Z) (obj : Object) : bool :=
  is_exported (entrance_actor (ootEntranceProperty obj)) headerIndex.

(** The guard of the loop of [SceneTransitionActors.new] on an object. *)
Definition transition_exported (headerIndex : Z) (obj : Object) : bool :=
  is_exported (actor (ootTransitionActorProperty obj)) headerIndex.

(** The spawn indices that the exported markers of [objs] claim, in the
    order of [objs]. *)
Definition spawn_indices (headerIndex : Z) (objs : list Object) : list Z :=
  map (fun obj => bpy.spawnIndex (ootEntranceProperty obj))
      (filter (entrance_exported headerIndex) objs).

(** The entrance markers of a scene, as [new] lists them. *)
Definition entrance_markers (sceneObj : Object) : list Object :=
  getObjectList (children_recursive sceneObj) "EMPTY" "Entrance".

(** The transition markers and the rooms of a scene, as [new] lists them. *)
Definition transition_markers (sceneObj : Object) : list Object :=
  getObjectList (children_recursive sceneObj) "EMPTY" "Transition Actor".

Definition rooms (sceneObj : Object) : list Object :=
  getObjectList (children_recursive sceneObj) "EMPTY" "Room".

(** The test of the inner loop that fills [actorToRoom]. *)
Definition is_transition_marker (obj : Object) : bool :=
  String.eqb (type obj) "EMPTY" && String.eqb (ootEmptyType obj) "Transition Actor".

(** [room] has the transition marker [obj] among its descendants. *)
Definition room_holds (room obj : Object) : Prop :=
  exists child, In child (children_recursive room)
                /\ oid child = oid obj /\ is_transition_marker child = true.

(** The owning room of a transition marker: the room of the scene that has
    the marker among its descendants; should several rooms have it, the
    last of them in the room list of the scene. *)
Definition owning_room (sceneObj room obj : Object) : Prop :=
  exists before after,
    rooms sceneObj = (before ++ room :: after)%list
    /\ room_holds room obj
    /\ Forall (fun r => ~ room_holds r obj) after.

(** *** The flat text of a table

    [from_data] reads rows of ten comma-separated fields.  The ten values
    that [getEntryC] prints, in the order it prints them, are the fields of
    the flat row of an entry. *)

Definition row_fields (a : TransitionActor.t) : list string :=
  ([TransitionActor.fmt_room (TransitionActor.roomFrom a);
    TransitionActor.fmt_cam (TransitionActor.cameraFront a);
    TransitionActor.fmt_room (TransitionActor.roomTo a);
    TransitionActor.fmt_cam (TransitionActor.cameraBack a);
    TransitionActor.id a]
   ++ map (fun p => Py.str_int (Py.round p)) (TransitionActor.pos a)
   ++ [TransitionActor.rot a; TransitionActor.params a])%list.

(** One pair of braces around the fields, then a comma: the row layout of
    the convention [not_zapd_assets = False]. *)
Definition flat_body (a : TransitionActor.t) : string :=
  "{" ++ Py.join "," (row_fields a).

Definition flat_row (a : TransitionActor.t) : string :=
  flat_body a ++ "},".

Definition flat_table (l : list TransitionActor.t) : string :=
  Py.join "" (map flat_row l).

Fixpoint has_char (c : ascii) (s : string) : bool :=
  match s with
  | EmptyString => false
  | String a s' => Ascii.eqb a c || has_char c s'
  end.

(** A field that is not empty and holds no comma and no brace. *)
Definition plain_field (f : string) : bool :=
  negb (String.eqb f "") && negb (has_char "," f)
  && negb (has_char "{" f) && negb (has_char "}" f).

(** What [from_data] makes of the [rot] text of an entry. *)
Definition rot_read (a : TransitionActor.t) : result string :=
  if Py.contains "DEG_TO_BINANG" (TransitionActor.rot a)
  then getEvalParams (TransitionActor.rot a)
  else Ok (TransitionActor.rot a).

(** An entry whose flat row can be read: rooms and cameras are set, the
    position has three components, the fields are plain, [hexOrDecInt] reads
    the five printed integers and the [rot] text can be evaluated. *)
Definition readable (a : TransitionActor.t) : Prop :=
  exists rf rt cf cb x y z r,
    TransitionActor.roomFrom a = Some rf /\ TransitionActor.roomTo a = Some rt
    /\ TransitionActor.cameraFront a = Some cf
    /\ TransitionActor.cameraBack a = Some cb
    /\ TransitionActor.pos a = [x; y; z]
    /\ forallb plain_field (row_fields a) = true
    /\ hexOrDecInt (Py.str_int rf) = Ok rf /\ hexOrDecInt (Py.str_int rt) = Ok rt
    /\ hexOrDecInt (Py.str_int (Py.round x)) = Ok (Py.round x)
    /\ hexOrDecInt (Py.str_int (Py.round y)) = Ok (Py.round y)
    /\ hexOrDecInt (Py.str_int (Py.round z)) = Ok (Py.round z)
    /\ rot_read a = Ok r.

(** [a'] is what is read back from the flat row of [a]. *)
Definition read_back (a a' : TransitionActor.t) : Prop :=
  TransitionActor.name a' = "(unset)"
  /\ TransitionActor.id a' = TransitionActor.id a
  /\ TransitionActor.pos a'
     = map (fun p => inject_Z (Py.round p)) (TransitionActor.pos a)
  /\ TransitionActor.roomFrom a' = TransitionActor.roomFrom a
  /\ TransitionActor.roomTo a' = TransitionActor.roomTo a
  /\ TransitionActor.params a' = TransitionActor.params a
  /\ TransitionActor.cameraFront a' = TransitionActor.cameraFront a
  /\ TransitionActor.cameraBack a' = TransitionActor.cameraBack a
  /\ rot_read a = Ok (TransitionActor.rot a')
  /\ TransitionActor.isRoomTransition a'
     = match TransitionActor.roomFrom a, TransitionActor.roomTo a with
       | Some rf, Some rt => Some (negb (rf =? rt)%Z)
       | _, _ => None
       end.

(** Every entry of the dictionary carries its key as its spawn index. *)
Definition keyed (d : Py.dict Z EntranceActor.t) : Prop :=
  Forall (fun p => EntranceActor.spawnIndex (snd p) = Some (fst p)) d.

End Markers.

(** ** Notions for the further properties *)

(** What every entry that [from_data] returns looks like: the placeholder
    name, both rooms and both cameras set, three integers as position, and
    [isRoomTransition] telling whether the rooms differ. *)
Definition parsed_shape (e : TransitionActor.t) : Prop :=
  TransitionActor.name e = "(unset)"
  /\ exists rf rt x y z cf cb,
       TransitionActor.roomFrom e = Some rf
       /\ TransitionActor.roomTo e = Some rt
       /\ TransitionActor.isRoomTransition e = Some (negb (rf =? rt)%Z)
       /\ TransitionActor.pos e = [inject_Z x; inject_Z y; inject_Z z]
       /\ TransitionActor.cameraFront e = Some cf
       /\ TransitionActor.cameraBack e = Some cb.

(** The marker [obj] is owned by a room of index [k], as [actorToRoom]
    tells. *)
Definition in_room {B : Blender} (actorToRoom : Py.dict nat Object) (k : Z)
    (obj : Object) : bool :=
  match SceneTransitionActors.owning_room_index actorToRoom obj with
  | Ok i => (i =? k)%Z
  | Err _ => false
  end.

(** The items that the loop of [SceneEntranceActors.new] puts into its
    dictionary for the objects [objs], when it runs to its end: the spawn
    index and the entry of every object that yields an entry. *)
Definition entrance_items {B : Blender} {H : Host} (sceneObj : Object)
    (transform : Matrix) (headerIndex : Z) (objs : list Object)
  : Py.dict Z EntranceActor.t :=
  flat_map
    (fun obj =>
       match SceneEntranceActors.new_entry sceneObj transform headerIndex obj with
       | Ok (Some e) => [(bpy.spawnIndex (ootEntranceProperty obj), e)]
       | _ => []
       end)
    objs.

(** *** The nested text of a table

    The row layout of the convention [not_zapd_assets = True]: the room and
    camera group and the position group keep their braces, as in the text of
    [getEntryC], and the last field is followed by a comma. *)

Definition nested_body (a : TransitionActor.t) : string :=
  "{" ++ Py.join ","
           [TransitionActor.fmt_room (TransitionActor.roomFrom a);
            TransitionActor.fmt_cam (TransitionActor.cameraFront a);
            TransitionActor.fmt_room (TransitionActor.roomTo a);
            TransitionActor.fmt_cam (TransitionActor.cameraBack a)]
  ++ "}," ++ TransitionActor.id a
  ++ ",{" ++ Py.join "," (map (fun p => Py.str_int (Py.round p)) (TransitionActor.pos a))
  ++ "}," ++ TransitionActor.rot a ++ "," ++ TransitionActor.params a.

Definition nested_row (a : TransitionActor.t) : string :=
  "{" ++ nested_body a ++ ",},".

Definition nested_table (l : list TransitionActor.t) : string :=
  Py.join "" (map nested_row l).

(** The text without the character [c]. *)
Fixpoint strip (c : ascii) (s : string) : string :=
  match s with
  | EmptyString => ""
  | String a s' => if Ascii.eqb a c then strip c s' else String a (strip c s')
  end.

(** No closing brace comes right after a comma; [after_comma] tells whether
    the character in front of the text is a comma. *)
Fixpoint no_comma_brace (after_comma : bool) (s : string) : bool :=
  match s with
  | EmptyString => true
  | String a s' =>
      if after_comma && Ascii.eqb a "}" then false
      else no_comma_brace (Ascii.eqb a ",") s'
  end.

(** ** A concrete host and scene, for running the definitions *)

Module Sample.

Definition blender : Blender :=
  {| HeaderSettings := list Z; Matrix := unit |}.

(** A [hexOrDecInt] that reads decimal literals. *)
Definition parse_int (s : string) : result Z :=
  match NilZero.int_of_string s with
  | Some d => Ok (Z.of_int d)
  | None => Err ValueError
  end.

(** The header settings of the sample host list the headers an object is
    part of. *)
Definition header_valid (hs : @HeaderSettings blender) (i : Z) : bool :=
  existsb (Z.eqb i) hs.

(** A [getObjectList] that keeps the objects of the given type and
    empty-type in the order of the list. *)
Definition objects_of (objList : list (@Object blender)) (objType emptyType : string)
  : list Object :=
  filter (fun obj => String.eqb (type obj) objType
                     && String.eqb (ootEmptyType obj) emptyType) objList.

Definition host : @Host blender :=
  {| indent := "    ";
     hexOrDecInt := parse_int;
     getEvalParams := fun s => Ok s;
     actorsByID := fun k =>
       if String.eqb k "ACTOR_EN_DOOR" then Some "Wooden Door - EN_DOOR"
       else if String.eqb k "ACTOR_PLAYER" then Some "Player - PLAYER"
       else None;
     use_new_actor_panel := true;
     isCurrentHeaderValid := header_valid;
     getConvertedTransform := fun _ _ obj _ =>
       ((inject_Z (Z.of_nat (oid obj)), 5 # 2, -7 # 2), (0, 16384, 512));
     getPropValue := fun _ k =>
       if String.eqb k "cameraTransitionFront" then "0x00" else "0xFF";
     getObjectList := objects_of |}.

Definition actorProp (k : string) (hs : list Z) : @OOTActorProperty blender :=
  {| actor_id := k; actor_id_custom := "ACTOR_CUSTOM"; bpy.params := "0x0001";
     params_custom := "0x0002"; headerSettings := (hs : @HeaderSettings blender) |}.

Definition noTransition : @OOTTransitionActorProperty blender :=
  mkTransitionActorProperty (actorProp "None" []) false None None.

Definition noEntrance : @OOTEntranceProperty blender :=
  mkEntranceProperty (actorProp "None" []) false None 0.

Definition room (i : nat) (index : Z) (children : list Object) : @Object blender :=
  mkObject i "EMPTY" "Room" {| bpy.roomIndex := index |} noTransition noEntrance children.

Definition transition (i : nat) (p : OOTTransitionActorProperty) : @Object blender :=
  mkObject i "EMPTY" "Transition Actor" {| bpy.roomIndex := 0 |} p noEntrance [].

Definition entrance (i : nat) (p : OOTEntranceProperty) : @Object blender :=
  mkObject i "EMPTY" "Entrance" {| bpy.roomIndex := 0 |} noTransition p [].

Definition scene (children : list Object) : @Object blender :=
  mkObject 0 "EMPTY" "Scene" {| bpy.roomIndex := 0 |} noTransition noEntrance children.

(** A door that stays in its room. *)
Definition door (i : nat) : Object :=
  transition i (mkTransitionActorProperty (actorProp "ACTOR_EN_DOOR" [0]) false None None).

(** A spawn point tied to [r] with spawn index [k]. *)
Definition spawn (i : nat) (k : Z) (r : option Object) : Object :=
  entrance i (mkEntranceProperty (actorProp "ACTOR_PLAYER" [0]) false r k).

(** The entry of the door [i] that stays in the room of index [r]. *)
Definition door_entry_at (i : nat) (r : Z) : TransitionActor.t :=
  {| TransitionActor.name := "Wooden Door";
     TransitionActor.id := "ACTOR_EN_DOOR";
     TransitionActor.pos := [inject_Z (Z.of_nat i); 5 # 2; -7 # 2];
     TransitionActor.rot := "DEG_TO_BINANG(90.000)";
     TransitionActor.params := "0x0001";
     TransitionActor.isRoomTransition := None;
     TransitionActor.roomFrom := Some r;
     TransitionActor.roomTo := Some r;
     TransitionActor.cameraFront := Some "0x00";
     TransitionActor.cameraBack := Some "0xFF" |}.

(** One room with one door in it. *)
Definition room_a : Object := room 1 0 [door 2].

Definition one_door_scene : Object := scene [room_a; door 2].

Definition door_entry : TransitionActor.t := door_entry_at 2 0.

Definition door_table : SceneTransitionActors.t :=
  SceneTransitionActors.mk "doors" [door_entry].

(** Two rooms with a door each; the host lists the room of index 1 and its
    door first. *)
Definition two_room_scene : Object :=
  scene [room 1 1 [door 3]; door 3; door 4; room 2 0 [door 4]].

Definition two_room_table : SceneTransitionActors.t :=
  SceneTransitionActors.mk "doors" [door_entry_at 4 0; door_entry_at 3 1].

(** Three spawn points that claim the indices 2, 0 and 1, in this order. *)
Definition spawn_scene : Object :=
  scene [room_a; spawn 3 2 (Some room_a); spawn 4 0 (Some room_a);
         spawn 5 1 (Some room_a)].

(** Three spawn points that claim the indices 0, 2 and 3. *)
Definition gap_scene : Object :=
  scene [room_a; spawn 3 0 (Some room_a); spawn 4 2 (Some room_a);
         spawn 5 3 (Some room_a)].

(** Two spawn points that both claim the index 1. *)
Definition repeated_scene : Object :=
  scene [room_a; spawn 3 1 (Some room_a); spawn 4 1 (Some room_a)].

(** The same two, after a spawn point that has no tied room. *)
Definition repeated_roomless_scene : Object :=
  scene [room_a; spawn 3 0 None; spawn 4 1 (Some room_a); spawn 5 1 (Some room_a)].






(** A room-crossing door with both of its rooms, in a room of index 0. *)
Definition through_door : Object :=
  transition 4
    (mkTransitionActorProperty (actorProp "ACTOR_EN_DOOR" [0]) true
       (Some (room 5 3 [])) (Some (room 6 7 []))).

Definition through_scene : Object :=
  scene [room 1 0 [through_door; door 2]; through_door; door 2].

(** A door that no room has among its descendants, and that is not
    exported either. *)
Definition stray_door : Object :=
  transition 9 (mkTransitionActorProperty (actorProp "None" [0]) false None None).

Definition stray_scene : Object :=
  scene [room_a; door 2; stray_door].

(** Three doors of the room of index 0 around a door of the room of
    index 1. *)
Definition busy_scene : Object :=
  scene [room 1 1 [door 3]; room 2 0 [door 4; door 5; door 6];
         door 5; door 3; door 4; door 6].

(** The spawn points of [spawn_scene] in another order. *)
Definition spawn_markers : list Object :=
  [spawn 3 2 (Some room_a); spawn 4 0 (Some room_a); spawn 5 1 (Some room_a)].

Definition spawn_markers_shuffled : list Object :=
  [spawn 5 1 (Some room_a); spawn 3 2 (Some room_a); spawn 4 0 (Some room_a)].

(** A door and a spawn point whose actor id is not in the actor table; the
    spawn point has no tied room either. *)
Definition unknown_door : Object :=
  transition 7 (mkTransitionActorProperty (actorProp "ACTOR_UNKNOWN" [0]) false None None).

Definition unknown_spawn : Object :=
  entrance 8 (mkEntranceProperty (actorProp "ACTOR_UNKNOWN" [0]) false None 0).

Definition unknown_scene : Object :=
  scene [room 1 0 [unknown_door]; unknown_door; unknown_spawn].



(** The dictionaries that the loop of [SceneEntranceActors.new] collects
    for two of the scenes. *)
Definition spawn_dict : Py.dict Z EntranceActor.t :=
  Eval vm_compute in
    match @SceneEntranceActors.collect _ host spawn_scene tt 0
            (@entrance_markers blender host spawn_scene) [] with
    | Ok d => d
    | Err _ => []
    end.

Definition gap_dict : Py.dict Z EntranceActor.t :=
  Eval vm_compute in
    match @SceneEntranceActors.collect _ host gap_scene tt 0
            (@entrance_markers blender host gap_scene) [] with
    | Ok d => d
    | Err _ => []
    end.

End Sample.

(** * Properties *)

(** ** Strings *)

Lemma append_nil_r (s : string) : s ++ "" = s.
Proof. induction s as [|c s IH]; simpl; [reflexivity | now rewrite IH]. Qed.

Lemma append_assoc (s1 s2 s3 : string) : (s1 ++ s2) ++ s3 = s1 ++ (s2 ++ s3).
Proof. induction s1 as [|c s1 IH]; simpl; [reflexivity | now rewrite IH]. Qed.

Lemma length_append (s1 s2 : string) :
  String.length (s1 ++ s2) = (String.length s1 + String.length s2)%nat.
Proof. induction s1 as [|c s1 IH]; simpl; [reflexivity | now rewrite IH]. Qed.

Lemma append_eq_self (s1 s2 : string) : s1 ++ s2 = s2 -> s1 = "".
Proof.
  intros E. apply (f_equal String.length) in E. rewrite length_append in E.
  destruct s1; [reflexivity | simpl in E; lia].
Qed.

Lemma prefix_nil (s : string) : String.prefix "" s = true.
Proof. destruct s; reflexivity. Qed.

Lemma prefix_append (s t : string) : String.prefix s (s ++ t) = true.
Proof.
  induction s as [|c s IH]; simpl; [apply prefix_nil |].
  destruct (ascii_dec c c); [exact IH | contradiction].
Qed.

(** ** The loop that drops empty fields ends

    The position [i] grows at every turn and the list never does, so the
    loop of [remove_empty] is over before its fuel is: more fuel changes
    nothing. *)

Lemma remove_first_length (x : string) (l : list string) :
  In x l -> List.length (Py.remove_first x l) = Nat.pred (List.length l).
Proof.
  induction l as [|y l IH]; simpl; [contradiction |].
  destruct (String.eqb_spec y x) as [E | N]; [reflexivity |].
  intros [E | I]; [contradiction |].
  simpl. rewrite (IH I). destruct l; [contradiction | reflexivity].
Qed.

Lemma remove_empty_loop_fuel (fuel : nat) :
  forall fuel' i params,
    (List.length params - i < fuel)%nat -> (fuel <= fuel')%nat ->
    Py.remove_empty_loop fuel' i params = Py.remove_empty_loop fuel i params.
Proof.
  induction fuel as [|fuel IH]; intros fuel' i params M L; [lia |].
  destruct fuel' as [|fuel']; [lia |]. simpl.
  destruct (nth_error params i) as [p |] eqn:N; [| reflexivity].
  assert (i < List.length params)%nat as Hi
    by (apply nth_error_Some; congruence).
  destruct (String.eqb p "").
  - apply IH; [| lia].
    rewrite remove_first_length by (eapply nth_error_In; exact N). lia.
  - apply IH; lia.
Qed.

Lemma remove_empty_fuel (fuel : nat) (params : list string) :
  (List.length params < fuel)%nat ->
  Py.remove_empty_loop fuel 0 params = Py.remove_empty params.
Proof.
  intros L. unfold Py.remove_empty. apply remove_empty_loop_fuel; lia.
Qed.

(** ** The scene commands *)

Section Commands.
Context {B : Blender} {H : Host}.

(** C7.  An entrance table without entries emits
    [SCENE_CMD_SPAWN_LIST(0, NULL),]: the name argument is the [NULL]
    sentinel, whatever the table is called.  A table with entries emits its
    entry count and its own name. *)
Theorem getCmd_spawn_list (name : string) :
  SceneEntranceActors.getCmd (SceneEntranceActors.mk name [])
  = indent ++ "SCENE_CMD_SPAWN_LIST(0, NULL)," ++ Py.nl
  /\ forall e es,
       SceneEntranceActors.getCmd (SceneEntranceActors.mk name (e :: es))
       = indent ++ "SCENE_CMD_SPAWN_LIST(" ++ Py.str_int (Py.len (e :: es))
         ++ ", " ++ name ++ ")," ++ Py.nl.
Proof.
  split; [reflexivity | intros e es].
  unfold SceneEntranceActors.getCmd. cbn [SceneEntranceActors.entries SceneEntranceActors.name].
  replace (0 <? Py.len (e :: es))%Z with true; [reflexivity |].
  symmetry. apply Z.ltb_lt. unfold Py.len. cbn [List.length]. lia.
Qed.

End Commands.

(** ** The row of a transition actor *)

Section EntryText.
Context {B : Blender} {H : Host}.

Lemma entryBody_with_name (n : string) (a : TransitionActor.t) :
  TransitionActor.entryBody (TransitionActor.with_name n a)
  = TransitionActor.entryBody a.
Proof. reflexivity. Qed.

(** C10.  The row is the name comment line followed by the rest of the row
    when the name is not empty, and the rest of the row alone when it is;
    the rest of the row does not depend on the name, and the row is the bare
    rest exactly when the name is empty. *)
Theorem getEntryC_name_comment (a : TransitionActor.t) :
  TransitionActor.getEntryC a
  = (if String.eqb (TransitionActor.name a) "" then ""
     else indent ++ "// " ++ TransitionActor.name a ++ Py.nl ++ indent)
    ++ TransitionActor.entryBody a
  /\ (forall n, TransitionActor.entryBody (TransitionActor.with_name n a)
                = TransitionActor.entryBody a)
  /\ (TransitionActor.getEntryC a = TransitionActor.entryBody a
      <-> TransitionActor.name a = "")
  /\ String.prefix ("{" ++ Py.nl) (TransitionActor.entryBody a) = true.
Proof.
  split; [reflexivity |].
  split; [intros n; apply entryBody_with_name |].
  split; [| apply prefix_append].
  unfold TransitionActor.getEntryC.
  destruct (String.eqb_spec (TransitionActor.name a) "") as [E | E].
  - split; [intros _; exact E | reflexivity].
  - split; [intros E' | intros E'; contradiction].
    apply append_eq_self in E'.
    apply (f_equal String.length) in E'. rewrite !length_append in E'.
    simpl in E'. lia.
Qed.

End EntryText.

(** ** Sorting *)

Section Sorting.
Context {A : Type} (key : A -> Z).

Let by_key (x y : A) : Prop := (key x <= key y)%Z.

Lemma insert_by_perm (x : A) (l : list A) :
  Permutation (Py.insert_by key x l) (x :: l).
Proof.
  induction l as [|y l IH]; simpl; [reflexivity |].
  destruct (key x <=? key y)%Z; [reflexivity |].
  rewrite IH. apply perm_swap.
Qed.

Lemma sorted_by_perm (l : list A) : Permutation (Py.sorted_by key l) l.
Proof.
  induction l as [|x l IH]; simpl; [reflexivity |].
  rewrite insert_by_perm. now constructor.
Qed.

Lemma sorted_by_length (l : list A) :
  List.length (Py.sorted_by key l) = List.length l.
Proof. apply Permutation_length, sorted_by_perm. Qed.

Lemma insert_by_sorted (x : A) (l : list A) :
  StronglySorted by_key l -> StronglySorted by_key (Py.insert_by key x l).
Proof.
  induction 1 as [|y l Hl IH Hy]; simpl.
  - constructor; constructor.
  - destruct (Z.leb_spec (key x) (key y)) as [Hxy | Hxy].
    + constructor; [now constructor |].
      constructor; [exact Hxy |].
      eapply Forall_impl; [| exact Hy].
      intros z Hz. unfold by_key in *. lia.
    + constructor; [exact IH |].
      eapply Permutation_Forall; [symmetry; apply insert_by_perm |].
      constructor; [unfold by_key; lia | exact Hy].
Qed.

Lemma sorted_by_sorted (l : list A) : StronglySorted by_key (Py.sorted_by key l).
Proof.
  induction l as [|x l IH]; simpl; [constructor | now apply insert_by_sorted].
Qed.

Lemma sorted_map_key (l : list A) :
  StronglySorted by_key l -> StronglySorted Z.le (map key l).
Proof.
  induction 1 as [|y l Hl IH Hy]; simpl; constructor; [exact IH |].
  apply Forall_map. exact Hy.
Qed.

Lemma sorted_by_keys_sorted (l : list A) :
  StronglySorted Z.le (map key (Py.sorted_by key l)).
Proof. apply sorted_map_key, sorted_by_sorted. Qed.

End Sorting.

Lemma sorted_unique (l1 l2 : list Z) :
  StronglySorted Z.le l1 -> StronglySorted Z.le l2 -> Permutation l1 l2 -> l1 = l2.
Proof.
  intros S1. revert l2.
  induction S1 as [|a l1 S1 IH Ha]; intros l2 S2 P.
  - apply Permutation_nil in P. now subst.
  - destruct S2 as [|b l2 S2 Hb].
    + symmetry in P. apply Permutation_nil in P. discriminate.
    + assert (a = b) as ->.
      { assert (In a (b :: l2)) as Ia by (eapply Permutation_in; [exact P | now left]).
        assert (In b (a :: l1)) as Ib
          by (eapply Permutation_in; [symmetry; exact P | now left]).
        rewrite Forall_forall in Ha, Hb.
        destruct Ia as [-> | Ia]; [reflexivity |].
        destruct Ib as [-> | Ib]; [reflexivity |].
        specialize (Ha _ Ib). specialize (Hb _ Ia). lia. }
      f_equal. apply IH; [exact S2 |].
      eapply Permutation_cons_inv. exact P.
Qed.

Lemma seq_sorted (s n : nat) : StronglySorted Z.le (map Z.of_nat (seq s n)).
Proof.
  revert s. induction n as [|n IH]; intros s; simpl; constructor; [apply IH |].
  apply Forall_map, Forall_forall. intros x Hx. apply in_seq in Hx. lia.
Qed.

Lemma range_sorted (n : nat) : StronglySorted Z.le (Py.range n).
Proof. apply seq_sorted. Qed.

Lemma range_length (n : nat) : List.length (Py.range n) = n.
Proof. unfold Py.range. now rewrite length_map, length_seq. Qed.

(** ** Dictionaries *)

Section Dict.
Context {K V : Type} (eqb : K -> K -> bool).
Hypothesis eqb_eq : forall a b, eqb a b = true <-> a = b.

Lemma eqb_neq_false (a b : K) : a <> b -> eqb a b = false.
Proof.
  intros N. destruct (eqb a b) eqn:E; [| reflexivity].
  apply eqb_eq in E. contradiction.
Qed.

Lemma dict_get_none (k : K) (d : Py.dict K V) :
  Py.dict_get eqb k d = None <-> ~ In k (map fst d).
Proof.
  induction d as [|[k' v] d IH]; simpl; [tauto |].
  destruct (eqb k' k) eqn:E.
  - apply eqb_eq in E. split; [discriminate | intros N; exfalso; apply N; now left].
  - rewrite IH. split; [intros N [E' | I] | intros N I].
    + apply eqb_eq in E'. congruence.
    + contradiction.
    + apply N. now right.
Qed.

Lemma dict_set_new (k : K) (v : V) (d : Py.dict K V) :
  Py.dict_get eqb k d = None -> Py.dict_set eqb k v d = (d ++ [(k, v)])%list.
Proof.
  induction d as [|[k' v'] d IH]; simpl; [reflexivity |].
  destruct (eqb k' k); [discriminate |].
  intros E. now rewrite IH.
Qed.

Lemma dict_get_set_same (k : K) (v : V) (d : Py.dict K V) :
  Py.dict_get eqb k (Py.dict_set eqb k v d) = Some v.
Proof.
  assert (eqb k k = true) as R by now apply eqb_eq.
  induction d as [|[k' v'] d IH]; simpl; [now rewrite R |].
  destruct (eqb k' k) eqn:E; simpl; [now rewrite R | now rewrite E].
Qed.

Lemma dict_get_set_other (k k' : K) (v : V) (d : Py.dict K V) :
  k <> k' -> Py.dict_get eqb k' (Py.dict_set eqb k v d) = Py.dict_get eqb k' d.
Proof.
  intros N. induction d as [|[k0 v0] d IH]; simpl.
  - now rewrite eqb_neq_false.
  - destruct (eqb k0 k) eqn:E; simpl.
    + apply eqb_eq in E. subst k0. now rewrite !eqb_neq_false.
    + now rewrite IH.
Qed.

End Dict.

(** ** The entrance table *)

Section Entrances.
Context {B : Blender} {H : Host}.
Variables (sceneObj : Object) (transform : Matrix) (headerIndex : Z).

Notation new_entry := (SceneEntranceActors.new_entry sceneObj transform headerIndex).
Notation collect := (SceneEntranceActors.collect sceneObj transform headerIndex).
Notation exported := (entrance_exported headerIndex).
Notation key_of obj := (bpy.spawnIndex (ootEntranceProperty obj)).

Lemma new_entry_skipped (obj : Object) :
  exported obj = false -> new_entry obj = Ok None.
Proof.
  unfold SceneEntranceActors.new_entry, entrance_exported. now intros ->.
Qed.

Lemma new_entry_exported (obj : Object) (r : result (option EntranceActor.t)) :
  exported obj = true -> new_entry obj = r ->
  match r with
  | Ok (Some e) =>
      EntranceActor.spawnIndex e = Some (key_of obj)
      /\ exists room, tiedRoom (ootEntranceProperty obj) = Some room
                      /\ EntranceActor.roomIndex e
                         = Some (bpy.roomIndex (ootRoomHeader room))
  | Ok None => False
  | Err e =>
      e = KeyError
      \/ (e = SceneEntranceActors.missing_room
          /\ tiedRoom (ootEntranceProperty obj) = None)
  end.
Proof.
  unfold SceneEntranceActors.new_entry, entrance_exported. intros -> <-.
  destruct (getConvertedTransform transform sceneObj obj true) as [pos rot].
  unfold actor_name.
  destruct (negb _); [destruct (actorsByID _) |]; simpl; try (now left);
    destruct (tiedRoom (ootEntranceProperty obj)) as [room |]; simpl;
    try (right; now split); (split; [reflexivity | now exists room]).
Qed.


Lemma collect_ok (objs : list Object) :
  forall d0 d, collect objs d0 = Ok d -> keyed d0 ->
    keyed d
    /\ map fst d = (map fst d0 ++ spawn_indices headerIndex objs)%list
    /\ (NoDup (map fst d0) -> NoDup (map fst d)).
Proof.
  unfold spawn_indices.
  induction objs as [|obj objs IH]; simpl; intros d0 d E K.
  - injection E as <-. rewrite app_nil_r. auto.
  - destruct (exported obj) eqn:X.
    + pose proof (new_entry_exported obj _ X eq_refl) as P.
      destruct (new_entry obj) as [[e |] | e]; simpl in E;
        [| contradiction | discriminate].
      destruct (Py.dict_get Z.eqb (key_of obj) d0) eqn:G; [discriminate |].
      rewrite (dict_set_new Z.eqb _ _ _ G) in E.
      apply IH in E.
      * destruct E as (K' & M & N). split; [exact K' |].
        rewrite map_app in M, N. simpl in M, N. rewrite <- app_assoc in M.
        split; [exact M |]. intros ND. apply N.
        apply NoDup_app; [exact ND | repeat constructor; simpl; tauto |].
        intros k I [<- | []]. apply (dict_get_none Z.eqb Z.eqb_eq) in G.
        contradiction.
      * apply Forall_app. split; [exact K |]. constructor; [| constructor].
        simpl. apply P.
    + rewrite (new_entry_skipped obj X) in E. simpl in E. now apply IH.
Qed.

(** What an exception of the loop can be: the one of an entry that cannot
    be built, or the one of a spawn index that is claimed a second time. *)
Lemma collect_err (objs : list Object) :
  forall d0 e, collect objs d0 = Err e ->
    (exists obj, In obj objs /\ new_entry obj = Err e)
    \/ exists k, e = SceneEntranceActors.repeated_index k
                 /\ (2 <= count_occ Z.eq_dec
                            (map fst d0 ++ spawn_indices headerIndex objs) k)%nat.
Proof.
  unfold spawn_indices.
  induction objs as [|obj objs IH]; simpl; intros d0 e E; [discriminate |].
  assert (forall d1, collect objs d1 = Err e ->
            (map fst d1 ++ map (fun obj => key_of obj) (filter exported objs)
             = map fst d0 ++ map (fun obj => key_of obj)
                               (filter exported (obj :: objs)))%list ->
            (exists o, (obj = o \/ In o objs) /\ new_entry o = Err e)
            \/ exists k, e = SceneEntranceActors.repeated_index k
                 /\ (2 <= count_occ Z.eq_dec
                            (map fst d0 ++ map (fun obj => key_of obj)
                               (filter exported (obj :: objs))) k)%nat) as Rest.
  { intros d1 E1 M. apply IH in E1. rewrite M in E1.
    destruct E1 as [(o & I & N) | R]; [left; exists o; auto | now right]. }
  simpl in Rest.
  destruct (exported obj) eqn:X.
  - pose proof (new_entry_exported obj _ X eq_refl) as P.
    destruct (new_entry obj) as [[a |] | e'] eqn:N; simpl in E; [| contradiction |].
    + destruct (Py.dict_get Z.eqb (key_of obj) d0) eqn:G.
      * injection E as <-. right. exists (key_of obj).
        split; [reflexivity |].
        rewrite count_occ_app. simpl.
        destruct (Z.eq_dec (key_of obj) (key_of obj)); [| contradiction].
        assert (In (key_of obj) (map fst d0)) as I.
        { destruct (in_dec Z.eq_dec (key_of obj) (map fst d0)) as [I | I];
            [exact I |].
          apply (dict_get_none Z.eqb Z.eqb_eq) in I. congruence. }
        apply (count_occ_In Z.eq_dec) in I. lia.
      * rewrite (dict_set_new Z.eqb _ _ _ G) in E. apply Rest in E; [exact E |].
        rewrite map_app. simpl. now rewrite <- app_assoc.
    + injection E as <-. left. exists obj. auto.
  - rewrite (new_entry_skipped obj X) in E. simpl in E. now apply Rest in E.
Qed.


(** An object whose entry cannot be built stops the loop, unless an earlier
    exception did. *)
Lemma collect_in_err (objs : list Object) (obj : Object) (e0 : PyError) :
  In obj objs -> new_entry obj = Err e0 ->
  forall d0, exists e, collect objs d0 = Err e.
Proof.
  intros I E0. induction objs as [|o objs IH]; [contradiction |].
  intros d0. simpl. destruct I as [-> | I].
  - rewrite E0. simpl. now exists e0.
  - destruct (new_entry o) as [[a |] | e]; simpl; [| now apply IH | now exists e].
    destruct (Py.dict_get Z.eqb (key_of o) d0); [eexists; reflexivity |].
    now apply IH.
Qed.

Lemma finish_contiguous (name : string) (d : Py.dict Z EntranceActor.t) :
  keyed d -> Permutation (map fst d) (Py.range (List.length d)) ->
  exists entries,
    SceneEntranceActors.finish name d = Ok (SceneEntranceActors.mk name entries)
    /\ map EntranceActor.spawnIndex entries = map Some (Py.range (List.length d))
    /\ Permutation entries (map snd d).
Proof.
  intros K P. unfold SceneEntranceActors.finish.
  pose proof (sorted_by_perm fst d) as S.
  assert (map fst (Py.sorted_by fst d) = Py.range (List.length d)) as E.
  { apply sorted_unique;
      [apply sorted_by_keys_sorted | apply range_sorted |].
    rewrite <- P. now apply Permutation_map. }
  rewrite sorted_by_length.
  destruct (list_eq_dec _ _ _) as [_ | N]; [| contradiction].
  eexists. split; [reflexivity |]. split; [| now apply Permutation_map].
  rewrite <- E.
  assert (keyed (Py.sorted_by fst d)) as K'
    by (eapply Permutation_Forall; [symmetry; exact S | exact K]).
  clear - K'. induction K' as [|p l Hp _ IH]; simpl; [reflexivity |].
  now rewrite Hp, IH.
Qed.

Lemma finish_gap (name : string) (d : Py.dict Z EntranceActor.t) :
  ~ Permutation (map fst d) (Py.range (List.length d)) ->
  SceneEntranceActors.finish name d = Err SceneEntranceActors.not_consecutive.
Proof.
  intros N. unfold SceneEntranceActors.finish. rewrite sorted_by_length.
  destruct (list_eq_dec _ _ _) as [E | _]; [| reflexivity].
  exfalso. apply N. rewrite <- E.
  apply Permutation_map. symmetry. apply sorted_by_perm.
Qed.

(** C2.  Once the loop has collected the entries of the exported entrance
    markers, whose keys are the spawn indices those markers claim, in the
    order of the scene: if the keys are not the indices [0 .. N-1] in some
    order, [new] raises the error of the last check; if they are, in
    whatever order the markers came, [new] returns a table whose entries
    carry the spawn indices [0, 1, ..., N-1] in this order, and they are the
    collected entries. *)
Theorem new_spawn_indices_contiguous (name : string) (d : Py.dict Z EntranceActor.t) :
  collect (entrance_markers sceneObj) [] = Ok d ->
  map fst d = spawn_indices headerIndex (entrance_markers sceneObj)
  /\ (~ Permutation (map fst d) (Py.range (List.length d)) ->
      SceneEntranceActors.new name sceneObj transform headerIndex
      = Err SceneEntranceActors.not_consecutive)
  /\ (Permutation (map fst d) (Py.range (List.length d)) ->
      exists entries,
        SceneEntranceActors.new name sceneObj transform headerIndex
        = Ok (SceneEntranceActors.mk name entries)
        /\ map EntranceActor.spawnIndex entries
           = map Some (Py.range (List.length d))
        /\ Permutation entries (map snd d)).
Proof.
  intros C. unfold SceneEntranceActors.new. fold (entrance_markers sceneObj).
  rewrite C. simpl.
  destruct (collect_ok _ _ _ C (Forall_nil _)) as (K & M & _).
  split; [exact M |]. split.
  - apply finish_gap.
  - now apply finish_contiguous.
Qed.

(** C3, amended.  When every entrance marker of the scene yields its entry
    or is passed over (none lacks its tied room, none has an actor id
    outside the actor table) and two exported markers claim the same spawn
    index, [new] raises the error that names a spawn index claimed twice;
    this is the error of the loop, not the one of the contiguity check that
    follows the loop. *)
Theorem new_repeated_spawn_index (name : string) :
  Forall (fun obj => exists e, new_entry obj = Ok e) (entrance_markers sceneObj) ->
  ~ NoDup (spawn_indices headerIndex (entrance_markers sceneObj)) ->
  exists k,
    SceneEntranceActors.new name sceneObj transform headerIndex
    = Err (SceneEntranceActors.repeated_index k)
    /\ (2 <= count_occ Z.eq_dec
               (spawn_indices headerIndex (entrance_markers sceneObj)) k)%nat
    /\ SceneEntranceActors.repeated_index k <> SceneEntranceActors.not_consecutive.
Proof.
  intros A D. unfold SceneEntranceActors.new. fold (entrance_markers sceneObj).
  destruct (collect (entrance_markers sceneObj) []) as [d | e] eqn:C.
  - exfalso. apply D.
    destruct (collect_ok _ _ _ C (Forall_nil _)) as (_ & M & N).
    simpl in M. rewrite <- M. apply N. constructor.
  - apply collect_err in C. destruct C as [(obj & I & E) | (k & -> & L)].
    + rewrite Forall_forall in A. destruct (A _ I) as [r R]. congruence.
    + exists k. simpl. split; [reflexivity |]. split; [exact L |].
      unfold SceneEntranceActors.repeated_index, SceneEntranceActors.not_consecutive.
      simpl. discriminate.
Qed.

End Entrances.

(** ** The transition table *)

Section ActorToRoom.
Context {B : Blender} {H : Host}.

Let fill (room : Object) (d : Py.dict nat Object) (childObj : Object) :=
  if String.eqb (type childObj) "EMPTY"
     && String.eqb (ootEmptyType childObj) "Transition Actor"
  then Py.dict_set Nat.eqb (oid childObj) room d
  else d.

Lemma fill_keeps (room : Object) (k : nat) (children : list Object) :
  forall d, Py.dict_get Nat.eqb k d = Some room ->
    Py.dict_get Nat.eqb k (fold_left (fill room) children d) = Some room.
Proof.
  induction children as [|c children IH]; simpl; intros d G; [exact G |].
  apply IH. unfold fill. destruct (_ && _); [| exact G].
  destruct (Nat.eq_dec (oid c) k) as [<- | N].
  - apply (dict_get_set_same Nat.eqb Nat.eqb_eq).
  - now rewrite (dict_get_set_other Nat.eqb Nat.eqb_eq).
Qed.

Lemma fill_hit (room obj : Object) :
  room_holds room obj ->
  forall d, Py.dict_get Nat.eqb (oid obj)
              (fold_left (fill room) (children_recursive room) d) = Some room.
Proof.
  intros (c & I & E & M). induction (children_recursive room) as [|c' l IH];
    [contradiction |].
  intros d. simpl. destruct I as [-> | I]; [| now apply IH].
  apply fill_keeps. unfold fill. unfold is_transition_marker in M. rewrite M, E.
  apply (dict_get_set_same Nat.eqb Nat.eqb_eq).
Qed.

Lemma fill_miss (room obj : Object) :
  ~ room_holds room obj ->
  forall d, Py.dict_get Nat.eqb (oid obj)
              (fold_left (fill room) (children_recursive room) d)
            = Py.dict_get Nat.eqb (oid obj) d.
Proof.
  unfold room_holds. intros N.
  induction (children_recursive room) as [|c l IH]; [reflexivity |].
  intros d. simpl. rewrite IH.
  - unfold fill. destruct (_ && _) eqn:M; [| reflexivity].
    destruct (Nat.eq_dec (oid c) (oid obj)) as [E | D].
    + exfalso. apply N. exists c. split; [now left | now split].
    + now rewrite (dict_get_set_other Nat.eqb Nat.eqb_eq).
  - intros (c' & I & E & M). apply N. exists c'. split; [now right | now split].
Qed.

(** [actorToRoom] maps a marker to its owning room. *)
Lemma actorToRoom_owning (sceneObj room obj : Object) :
  owning_room sceneObj room obj ->
  Py.dict_get Nat.eqb (oid obj)
    (SceneTransitionActors.actorToRoom_of (rooms sceneObj)) = Some room.
Proof.
  intros (before & after & -> & Hr & Ha).
  unfold SceneTransitionActors.actorToRoom_of.
  rewrite fold_left_app. simpl. fold (fill room).
  generalize (fold_left
                (fun d obj0 =>
                   fold_left
                     (fun d0 childObj =>
                        if String.eqb (type childObj) "EMPTY"
                           && String.eqb (ootEmptyType childObj) "Transition Actor"
                        then Py.dict_set Nat.eqb (oid childObj) obj0 d0
                        else d0) (children_recursive obj0) d) before []).
  intros d0. pose proof (fill_hit room obj Hr d0) as G.
  revert G. generalize (fold_left (fill room) (children_recursive room) d0).
  induction Ha as [|r after Hn _ IH]; intros d G; simpl; [exact G |].
  apply IH. fold (fill r). now rewrite fill_miss.
Qed.

End ActorToRoom.

Lemma Permutation_filter {A : Type} (f : A -> bool) (l l' : list A) :
  Permutation l l' -> Permutation (filter f l) (filter f l').
Proof.
  induction 1 as [| x l l' _ IH | x y l | l l' l'' _ IH1 _ IH2]; simpl.
  - constructor.
  - destruct (f x); [now constructor | exact IH].
  - destruct (f x), (f y); try reflexivity. apply perm_swap.
  - now transitivity (filter f l').
Qed.

Lemma StronglySorted_filter {A : Type} (R : A -> A -> Prop) (f : A -> bool)
    (l : list A) :
  StronglySorted R l -> StronglySorted R (filter f l).
Proof.
  induction 1 as [|x l _ IH Hx]; simpl; [constructor |].
  destruct (f x); [| exact IH].
  constructor; [exact IH |].
  rewrite Forall_forall in *. intros y Hy. apply filter_In in Hy. now apply Hx.
Qed.

Section MapM.
Context {A B : Type} (f : A -> result B).

Lemma mapM_pairs (l : list (B * A)) :
  Forall (fun p => f (snd p) = Ok (fst p)) l ->
  mapM f (map snd l) = Ok (map fst l).
Proof.
  induction 1 as [|p l Hp _ IH]; simpl; [reflexivity |].
  now rewrite Hp, IH.
Qed.

Lemma mapM_combine (l : list A) :
  forall bs, mapM f l = Ok bs ->
    Forall (fun p => f (snd p) = Ok (fst p)) (combine bs l)
    /\ map snd (combine bs l) = l.
Proof.
  induction l as [|a l IH]; simpl; intros bs E.
  - injection E as <-. split; [constructor | reflexivity].
  - destruct (f a) as [b |] eqn:Fa; simpl in E; [| discriminate].
    destruct (mapM f l) as [bs' |]; simpl in E; [| discriminate].
    injection E as <-. destruct (IH bs' eq_refl) as [F M]. simpl.
    split; [now constructor | now rewrite M].
Qed.

Lemma mapM_in_err (l : list A) (a : A) (e0 : PyError) :
  In a l -> f a = Err e0 -> exists e, mapM f l = Err e.
Proof.
  intros I E. induction l as [|x l IH]; [contradiction |]. simpl.
  destruct I as [-> | I]; [rewrite E; now exists e0 |].
  destruct (f x) as [b | e]; simpl; [| now exists e].
  destruct (IH I) as [e ->]. now exists e.
Qed.

End MapM.

Section Transitions.
Context {B : Blender} {H : Host}.
Variables (actorToRoom : Py.dict nat Object).
Variables (sceneObj : Object) (transform : Matrix) (headerIndex : Z).

Notation new_entry :=
  (SceneTransitionActors.new_entry actorToRoom sceneObj transform headerIndex).
Notation new_loop :=
  (SceneTransitionActors.new_loop actorToRoom sceneObj transform headerIndex).
Notation exported := (transition_exported headerIndex).
Notation prop_of obj := (ootTransitionActorProperty obj).

Lemma transition_skipped (obj : Object) :
  exported obj = false -> new_entry obj = Ok None.
Proof.
  unfold SceneTransitionActors.new_entry, transition_exported. now intros ->.
Qed.

Lemma transition_same_room (obj room : Object) (n : string) :
  exported obj = true ->
  bpy.isRoomTransition (prop_of obj) = false ->
  Py.dict_get Nat.eqb (oid obj) actorToRoom = Some room ->
  actor_name (actor (prop_of obj)) = Ok n ->
  exists e,
    new_entry obj = Ok (Some e)
    /\ TransitionActor.roomFrom e = Some (roomIndex (ootRoomHeader room))
    /\ TransitionActor.roomTo e = Some (roomIndex (ootRoomHeader room))
    /\ TransitionActor.cameraFront e
       = Some (getPropValue (prop_of obj) "cameraTransitionFront")
    /\ TransitionActor.cameraBack e
       = Some (getPropValue (prop_of obj) "cameraTransitionBack")
    /\ TransitionActor.isRoomTransition e = None.
Proof.
  unfold SceneTransitionActors.new_entry, transition_exported.
  intros -> -> G N.
  destruct (getConvertedTransform transform sceneObj obj true) as [pos rot].
  unfold SceneTransitionActors.owning_room_index. rewrite G. simpl. rewrite N.
  simpl. eexists. split; [reflexivity |]. simpl. repeat split.
Qed.




(** The loop yields one entry per exported object, in the order of the
    objects. *)
Lemma new_loop_ok (objs : list Object) :
  forall es, new_loop objs = Ok es ->
    Forall2 (fun obj e => new_entry obj = Ok (Some e)) (filter exported objs) es.
Proof.
  induction objs as [|obj objs IH]; simpl; intros es E.
  - injection E as <-. constructor.
  - destruct (new_entry obj) as [oe | e'] eqn:N; simpl in E; [| discriminate].
    destruct (new_loop objs) as [es' |]; simpl in E; [| discriminate].
    injection E as <-. specialize (IH es' eq_refl).
    destruct (exported obj) eqn:X.
    + destruct oe as [a |]; [now constructor |].
      unfold SceneTransitionActors.new_entry, transition_exported in N, X.
      rewrite X in N.
      destruct (getConvertedTransform transform sceneObj obj true) as [pos rot].
      destruct (if bpy.isRoomTransition (prop_of obj) then _ else _);
        simpl in N; [| discriminate].
      destruct (actor_name _); simpl in N; discriminate.
    + rewrite (transition_skipped obj X) in N. injection N as <-. exact IH.
Qed.


Lemma new_loop_in_err (objs : list Object) (obj : Object) (e0 : PyError) :
  In obj objs -> new_entry obj = Err e0 -> exists e, new_loop objs = Err e.
Proof.
  intros I E. induction objs as [|o objs IH]; [contradiction |]. simpl.
  destruct I as [-> | I]; [rewrite E; now exists e0 |].
  destruct (new_entry o) as [oe | e]; simpl; [| now exists e].
  destruct (IH I) as [e ->]. now exists e.
Qed.

(** The sort returns the objects in an order in which their room indices
    do not decrease. *)
Lemma sort_by_room_ok (objs sorted : list Object) :
  SceneTransitionActors.sort_by_room actorToRoom objs = Ok sorted ->
  exists pairs : list (Z * Object),
    sorted = map snd pairs
    /\ StronglySorted Z.le (map fst pairs)
    /\ Forall (fun p => SceneTransitionActors.owning_room_index actorToRoom (snd p)
                        = Ok (fst p)) pairs
    /\ Permutation (map snd pairs) objs.
Proof.
  unfold SceneTransitionActors.sort_by_room.
  destruct (mapM _ objs) as [keys |] eqn:M; simpl; [| discriminate].
  intros [= <-]. destruct (mapM_combine _ _ _ M) as [F S].
  exists (Py.sorted_by fst (combine keys objs)).
  split; [reflexivity |]. split; [apply sorted_by_keys_sorted |].
  pose proof (sorted_by_perm fst (combine keys objs)) as P. split.
  - eapply Permutation_Forall; [symmetry; exact P | exact F].
  - rewrite <- S at 2. now apply Permutation_map.
Qed.

End Transitions.

Lemma mapM_err {A B : Type} (f : A -> result B) (l : list A) (e : PyError) :
  mapM f l = Err e -> exists a, In a l /\ f a = Err e.
Proof.
  induction l as [|x l IH]; simpl; [discriminate |].
  destruct (f x) as [b | e'] eqn:F; simpl.
  - destruct (mapM f l) as [bs | e'']; simpl; [discriminate |].
    intros [= <-]. destruct (IH eq_refl) as (a & I & E). exists a. auto.
  - intros [= <-]. exists x. auto.
Qed.

Lemma Forall2_In_l {A B : Type} (R : A -> B -> Prop) (l : list A) (l' : list B) (a : A) :
  Forall2 R l l' -> In a l -> exists b, In b l' /\ R a b.
Proof.
  induction 1 as [|x y l l' Hxy _ IH]; intros I; [contradiction |].
  destruct I as [-> | I]; [exists y; split; [now left | exact Hxy] |].
  destruct (IH I) as (b & Ib & Rb). exists b. split; [now right | exact Rb].
Qed.

Lemma Forall2_filter_pairs {A B C : Type} (g : A -> C) (f : C -> bool)
    (R : C -> B -> Prop) (l : list A) (l' : list B) :
  Forall2 R (filter f (map g l)) l' ->
  Forall2 (fun a b => R (g a) b) (filter (fun a => f (g a)) l) l'.
Proof.
  revert l'. induction l as [|a l IH]; simpl; intros l' F.
  - inversion F. constructor.
  - destruct (f (g a)); [| now apply IH].
    inversion F as [| x y lx ly Hxy Hrest]; subst. constructor; [exact Hxy |].
    now apply IH.
Qed.

Lemma filter_map_comm {A C : Type} (g : A -> C) (f : C -> bool) (l : list A) :
  filter f (map g l) = map g (filter (fun a => f (g a)) l).
Proof.
  induction l as [|a l IH]; simpl; [reflexivity |].
  destruct (f (g a)); simpl; now rewrite IH.
Qed.

Lemma sorted_of_map_key {A : Type} (key : A -> Z) (l : list A) :
  StronglySorted Z.le (map key l) ->
  StronglySorted (fun x y => key x <= key y)%Z l.
Proof.
  induction l as [|x l IH]; simpl; intros S; [constructor |].
  inversion S as [| y ys Hs Hf]; subst. constructor; [now apply IH |].
  rewrite Forall_forall in *. intros z Hz. apply Hf. now apply in_map.
Qed.

(** ** The two builders *)

Section Builders.
Context {B : Blender} {H : Host}.
Variables (sceneObj : Object) (transform : Matrix) (headerIndex : Z).

Notation actorToRoom := (SceneTransitionActors.actorToRoom_of (rooms sceneObj)).
Notation transition_entry :=
  (SceneTransitionActors.new_entry actorToRoom sceneObj transform headerIndex).
Notation entrance_entry :=
  (SceneEntranceActors.new_entry sceneObj transform headerIndex).
Notation rotation obj := (snd (getConvertedTransform transform sceneObj obj true)).

Lemma transitions_new_ok (name : string) (t : SceneTransitionActors.t) :
  SceneTransitionActors.new name sceneObj transform headerIndex = Ok t ->
  exists pairs : list (Z * Object),
    StronglySorted Z.le (map fst pairs)
    /\ Forall (fun p => SceneTransitionActors.owning_room_index actorToRoom (snd p)
                        = Ok (fst p)) pairs
    /\ Permutation (map snd pairs)
         (filter (transition_exported headerIndex) (transition_markers sceneObj))
    /\ Forall2 (fun p e => transition_entry (snd p) = Ok (Some e)) pairs
         (SceneTransitionActors.entries t).
Proof.
  unfold SceneTransitionActors.new.
  fold (rooms sceneObj). fold (transition_markers sceneObj).
  destruct (SceneTransitionActors.sort_by_room _ _) as [sorted |] eqn:S; simpl;
    [| discriminate].
  destruct (SceneTransitionActors.new_loop _ _ _ _ sorted) as [es |] eqn:L; simpl;
    [| discriminate].
  intros [= <-]. simpl.
  destruct (sort_by_room_ok _ _ _ S) as (pairs & -> & So & F & P).
  apply new_loop_ok in L.
  exists (filter (fun p => transition_exported headerIndex (snd p)) pairs).
  split; [| split; [| split]].
  - apply sorted_map_key, StronglySorted_filter. now apply sorted_of_map_key.
  - rewrite Forall_forall in *. intros p Hp. apply filter_In in Hp. now apply F.
  - rewrite <- filter_map_comm. now apply Permutation_filter.
  - exact (Forall2_filter_pairs snd (transition_exported headerIndex)
             (fun obj e => transition_entry obj = Ok (Some e)) pairs es L).
Qed.


Lemma transition_entry_inv (obj : Object) (e : TransitionActor.t) :
  transition_entry obj = Ok (Some e) ->
  transition_exported headerIndex obj = true
  /\ exists n, actor_name (actor (ootTransitionActorProperty obj)) = Ok n.
Proof.
  unfold SceneTransitionActors.new_entry, transition_exported.
  destruct (is_exported _ _); [| discriminate].
  destruct (getConvertedTransform transform sceneObj obj true) as [pos rot].
  destruct (if bpy.isRoomTransition _ then _ else _); simpl; [| discriminate].
  destruct (actor_name _) as [n |]; simpl; [| discriminate].
  intros _. split; [reflexivity | now exists n].
Qed.

(** C6, amended.  The entry built for a transition marker that is not
    flagged as room-crossing has [roomFrom] and [roomTo] both equal to the
    room index of the owning room of the marker, and the front and the back
    camera values of the marker next to them; its [isRoomTransition] field is
    left unset ([None]), as [new] never assigns it.  The entry is in every
    table that [new] returns for the scene. *)
Theorem new_same_room_entry (name : string) (obj room : Object) (e : TransitionActor.t) :
  transition_entry obj = Ok (Some e) ->
  bpy.isRoomTransition (ootTransitionActorProperty obj) = false ->
  owning_room sceneObj room obj ->
  TransitionActor.roomFrom e = Some (roomIndex (ootRoomHeader room))
  /\ TransitionActor.roomTo e = Some (roomIndex (ootRoomHeader room))
  /\ TransitionActor.cameraFront e
     = Some (getPropValue (ootTransitionActorProperty obj) "cameraTransitionFront")
  /\ TransitionActor.cameraBack e
     = Some (getPropValue (ootTransitionActorProperty obj) "cameraTransitionBack")
  /\ TransitionActor.isRoomTransition e = None
  /\ (In obj (transition_markers sceneObj) ->
      forall t, SceneTransitionActors.new name sceneObj transform headerIndex = Ok t ->
                In e (SceneTransitionActors.entries t)).
Proof.
  intros E C O. destruct (transition_entry_inv _ _ E) as [X [n N]].
  destruct (transition_same_room actorToRoom sceneObj transform headerIndex
              obj room n X C (actorToRoom_owning _ _ _ O) N)
    as (e' & E' & F1 & F2 & F3 & F4 & F5).
  assert (e' = e) as -> by congruence.
  repeat (split; [assumption |]).
  intros I t T. apply transitions_new_ok in T.
  destruct T as (pairs & _ & _ & P & F).
  assert (In obj (map snd pairs)) as Ip.
  { eapply Permutation_in; [symmetry; exact P |]. apply filter_In. auto. }
  apply in_map_iff in Ip. destruct Ip as (p & <- & Ip).
  destruct (Forall2_In_l _ _ _ _ F Ip) as (b & Ib & Rb).
  assert (b = e) as -> by congruence. exact Ib.
Qed.





End Builders.

(** ** Reading the flat text back *)

Lemma has_char_append (c : ascii) (s t : string) :
  has_char c (s ++ t) = has_char c s || has_char c t.
Proof.
  induction s as [|a s IH]; simpl; [reflexivity |].
  now rewrite IH, orb_assoc.
Qed.

Lemma has_char_join (c : ascii) (sep : string) (l : list string) :
  has_char c sep = false ->
  Forall (fun f => has_char c f = false) l ->
  has_char c (Py.join sep l) = false.
Proof.
  intros Hs. induction 1 as [|f l Hf Hl IH]; [reflexivity |].
  unfold Py.join in *. simpl. destruct l as [|g l]; [exact Hf |].
  now rewrite !has_char_append, Hf, Hs, IH.
Qed.

Section Split.
Variables (c0 : ascii) (sep' : string).

Notation sep := (String c0 sep').

Lemma prefix_other (c : ascii) (s : string) :
  Ascii.eqb c c0 = false -> String.prefix sep (String c s) = false.
Proof.
  intros N. simpl. destruct (ascii_dec c0 c) as [-> | _]; [| reflexivity].
  now rewrite Ascii.eqb_refl in N.
Qed.

Lemma split_go_skip (t rest cur : string) :
  Py.split_go sep (String.length t) cur (t ++ rest) = Py.split_go sep 0 cur rest.
Proof.
  induction t as [|c t IH]; simpl; [reflexivity | exact IH].
Qed.

Lemma split_go_last (body cur : string) :
  has_char c0 body = false -> Py.split_go sep 0 cur body = [cur ++ body].
Proof.
  revert cur. induction body as [|c body IH]; intros cur N.
  - simpl. now rewrite append_nil_r.
  - simpl in N. apply orb_false_iff in N. destruct N as [N1 N2].
    cbn [Py.split_go]. rewrite (prefix_other _ _ N1), (IH _ N2).
    now rewrite append_assoc.
Qed.

Lemma split_go_field (body rest cur : string) :
  has_char c0 body = false ->
  Py.split_go sep 0 cur (body ++ sep ++ rest)
  = (cur ++ body) :: Py.split_go sep 0 "" rest.
Proof.
  revert cur. induction body as [|c body IH]; intros cur N.
  - rewrite append_nil_r. cbn [append Py.split_go].
    change (String c0 (sep' ++ rest)) with (sep ++ rest).
    rewrite prefix_append. f_equal. cbn [String.length Nat.pred].
    apply split_go_skip.
  - simpl in N. apply orb_false_iff in N. destruct N as [N1 N2].
    cbn [append Py.split_go]. rewrite (prefix_other _ _ N1), (IH _ N2).
    now rewrite append_assoc.
Qed.

End Split.

Lemma split_join_comma (l : list string) :
  l <> [] -> Forall (fun f => has_char "," f = false) l ->
  Py.split "," (Py.join "," l) = l.
Proof.
  intros NE F. unfold Py.split, Py.join.
  induction F as [|f l Hf Hl IH]; [contradiction |].
  destruct l as [|g l].
  - simpl. now rewrite split_go_last.
  - change (concat "," (f :: g :: l)) with (f ++ "," ++ concat "," (g :: l)).
    rewrite split_go_field by exact Hf. simpl append at 1.
    f_equal. apply IH. discriminate.
Qed.

Lemma replace_absent (c : ascii) (s : string) :
  has_char c s = false -> Py.replace (String c "") "" s = s.
Proof.
  intros N. unfold Py.replace, Py.split. now rewrite split_go_last.
Qed.

Lemma replace_leading (c : ascii) (s : string) :
  has_char c s = false -> Py.replace (String c "") "" (String c s) = s.
Proof.
  intros N. unfold Py.replace, Py.split.
  change (String c s) with ("" ++ String c "" ++ s).
  rewrite split_go_field by reflexivity.
  now rewrite split_go_last.
Qed.

Lemma remove_empty_loop_plain (fuel i : nat) (params : list string) :
  Forall (fun f => String.eqb f "" = false) params ->
  Py.remove_empty_loop fuel i params = params.
Proof.
  intros F. revert i. induction fuel as [|fuel IH]; intros i; simpl; [reflexivity |].
  destruct (nth_error params i) as [p |] eqn:N; [| reflexivity].
  apply nth_error_In in N. rewrite Forall_forall in F. rewrite (F _ N).
  apply IH.
Qed.

Lemma split_rows (bodies : list string) :
  Forall (fun b => has_char "}" b = false) bodies ->
  Py.split "}," (Py.join "" (map (fun b => b ++ "},") bodies))
  = (bodies ++ [""])%list.
Proof.
  unfold Py.split, Py.join.
  induction 1 as [|b l Hb Hl IH]; [reflexivity |].
  assert (concat "" (map (fun b => b ++ "},") (b :: l))
          = b ++ "}," ++ concat "" (map (fun b => b ++ "},") l)) as ->.
  { simpl. destruct (map _ l); simpl;
      [reflexivity | now rewrite append_assoc]. }
  rewrite split_go_field by exact Hb. simpl. now rewrite IH.
Qed.

Section ReadBack.
Context {B : Blender} {H : Host}.

(** The text of [getEntryC] is made of the fields of the flat row: the
    first four in the room and camera group, the three of the position in a
    group of their own. *)
Lemma actorInfos_row_fields (a : TransitionActor.t) :
  TransitionActor.actorInfos a
  = ["{ " ++ Py.join ", " (firstn 4 (row_fields a)) ++ " }";
     nth 4 (row_fields a) "";
     "{ " ++ Py.join ", "
              (map (fun p => Py.str_int (Py.round p)) (TransitionActor.pos a))
     ++ " }";
     TransitionActor.rot a;
     TransitionActor.params a].
Proof.
  unfold TransitionActor.actorInfos, TransitionActor.roomData,
    TransitionActor.posData, row_fields, Py.join.
  simpl. repeat (rewrite !append_assoc; simpl). reflexivity.
Qed.

Lemma plain_fields (l : list string) :
  forallb plain_field l = true ->
  Forall (fun f => String.eqb f "" = false) l
  /\ Forall (fun f => has_char "," f = false) l
  /\ Forall (fun f => has_char "{" f = false) l
  /\ Forall (fun f => has_char "}" f = false) l.
Proof.
  intros F. rewrite forallb_forall in F.
  repeat split; apply Forall_forall; intros f I; specialize (F f I);
    unfold plain_field in F; rewrite !andb_true_iff, !negb_true_iff in F; tauto.
Qed.

Lemma parse_flat_body (a : TransitionActor.t) :
  forallb plain_field (row_fields a) = true ->
  SceneTransitionActors.parse_entry (flat_body a)
  = SceneTransitionActors.parse_fields (row_fields a).
Proof.
  intros F. destruct (plain_fields _ F) as (F0 & F1 & F2 & F3).
  unfold SceneTransitionActors.parse_entry, flat_body.
  change ("{" ++ Py.join "," (row_fields a))
    with (String "{" (Py.join "," (row_fields a))).
  rewrite replace_leading by (now apply has_char_join).
  rewrite replace_absent by (now apply has_char_join).
  rewrite split_join_comma; [| unfold row_fields; discriminate | exact F1].
  unfold Py.remove_empty. now rewrite remove_empty_loop_plain.
Qed.

Lemma parse_fields_readable (a : TransitionActor.t) :
  readable a ->
  exists a', SceneTransitionActors.parse_fields (row_fields a) = Ok a'
             /\ read_back a a'.
Proof.
  intros (rf & rt & cf & cb & x & y & z & r & Hrf & Hrt & Hcf & Hcb & Hp & _
          & Erf & Ert & Ex & Ey & Ez & Er).
  unfold row_fields. rewrite Hrf, Hrt, Hcf, Hcb, Hp.
  cbn [map app TransitionActor.fmt_room TransitionActor.fmt_cam
       SceneTransitionActors.parse_fields].
  rewrite Ex, Ey, Ez. cbn [bind].
  unfold rot_read in Er. rewrite Er. cbn [bind]. rewrite Erf, Ert. cbn [bind].
  eexists. split; [reflexivity |].
  unfold read_back, rot_read. cbn. rewrite Hrf, Hrt, Hcf, Hcb, Hp, Er.
  repeat split.
Qed.

Lemma flat_table_rows (es : list TransitionActor.t) :
  flat_table es = Py.join "" (map (fun b => b ++ "},") (map flat_body es)).
Proof. unfold flat_table. now rewrite map_map. Qed.

Lemma flat_body_plain (a : TransitionActor.t) :
  forallb plain_field (row_fields a) = true ->
  has_char "}" (flat_body a) = false /\ String.eqb (flat_body a) "" = false.
Proof.
  intros Pl. destruct (plain_fields _ Pl) as (_ & _ & _ & F3).
  split; [| reflexivity].
  change (has_char "}" (Py.join "," (row_fields a)) = false).
  now apply has_char_join.
Qed.

Lemma readable_plain (a : TransitionActor.t) :
  readable a -> forallb plain_field (row_fields a) = true.
Proof.
  now intros (rf & rt & cf & cb & x & y & z & r & _ & _ & _ & _ & _ & Pl & _).
Qed.

Lemma filter_bodies (es : list TransitionActor.t) :
  filter (fun entry => negb (String.eqb entry "")) (map flat_body es ++ [""])%list
  = map flat_body es.
Proof.
  rewrite filter_app. simpl. rewrite app_nil_r.
  induction es as [|a es IH]; simpl; [reflexivity | now rewrite IH].
Qed.

Lemma mapM_flat_bodies (es : list TransitionActor.t) :
  Forall readable es ->
  exists es',
    mapM SceneTransitionActors.parse_entry (map flat_body es) = Ok es'
    /\ Forall2 read_back es es'.
Proof.
  induction 1 as [|a es Ha _ (es' & E & F)]; cbn [map mapM].
  - exists []. split; [reflexivity | constructor].
  - destruct (parse_fields_readable a Ha) as (a' & P & R).
    rewrite (parse_flat_body a (readable_plain a Ha)), P. cbn [bind].
    rewrite E. cbn [bind].
    exists (a' :: es'). split; [reflexivity | now constructor].
Qed.

(** C1, amended.  The text of a table in the flat row layout, one row
    [{roomFrom,cameraFront,roomTo,cameraBack,id,x,y,z,rot,params},] per
    entry with the values that [getEntryC] prints, is read by [from_data]
    (convention [not_zapd_assets = False]) into one entry per row: [id],
    [roomFrom], [roomTo], [params] and the two camera values are those of the
    original entry, [pos] is its position rounded to integers, [rot] is its
    [rot] text, evaluated by [getEvalParams] when it is a [DEG_TO_BINANG]
    expression, [isRoomTransition] tells whether the two rooms differ and
    [name] is ["(unset)"]. *)
Theorem from_data_flat_table (es : list TransitionActor.t) :
  Forall readable es ->
  exists es',
    SceneTransitionActors.from_data (flat_table es) false
    = Ok (SceneTransitionActors.mk "(unset)" es')
    /\ Forall2 read_back es es'.
Proof.
  intros R. destruct (mapM_flat_bodies es R) as (es' & E & F).
  exists es'. split; [| exact F].
  unfold SceneTransitionActors.from_data, SceneTransitionActors.split_entries.
  rewrite flat_table_rows, split_rows.
  - rewrite filter_bodies, E. reflexivity.
  - apply Forall_map. eapply Forall_impl; [| exact R].
    intros a Ha. now apply flat_body_plain, readable_plain.
Qed.

End ReadBack.

Lemma parse_fields_count {B : Blender} {H : Host} (params : list string) :
  List.length params <> 10%nat ->
  SceneTransitionActors.parse_fields params = Err AssertionError.
Proof.
  intros N. do 11 (destruct params as [|? params]; try reflexivity).
  simpl in N. lia.
Qed.

(** A row of plain fields that are not ten in number is refused. *)
Lemma parse_entry_wrong_count {B : Blender} {H : Host} (fields : list string) :
  fields <> [] -> forallb plain_field fields = true ->
  List.length fields <> 10%nat ->
  SceneTransitionActors.parse_entry (Py.join "," fields) = Err AssertionError.
Proof.
  intros NE Pl N. destruct (plain_fields _ Pl) as (F0 & F1 & F2 & F3).
  unfold SceneTransitionActors.parse_entry.
  rewrite (replace_absent "{") by (now apply has_char_join).
  rewrite (replace_absent "}") by (now apply has_char_join).
  rewrite split_join_comma by assumption.
  unfold Py.remove_empty. rewrite remove_empty_loop_plain by assumption.
  now apply parse_fields_count.
Qed.

(** ** The parser on concrete text *)

(** C5.  A row of nine fields followed by two commas passes the field-count
    assertion: the loop that drops empty fields changes the list it runs
    over, so it drops one of the two empty fields and never looks at the
    other, which is then read as the tenth field, [params]. *)
Theorem from_data_nine_fields_accepted :
  Py.split "," "0,1,2,3,ID,1,2,3,R,,"
  = ["0"; "1"; "2"; "3"; "ID"; "1"; "2"; "3"; "R"; ""; ""]
  /\ Py.remove_empty (Py.split "," "0,1,2,3,ID,1,2,3,R,,")
     = ["0"; "1"; "2"; "3"; "ID"; "1"; "2"; "3"; "R"; ""]
  /\ @SceneTransitionActors.from_data _ Sample.host "0,1,2,3,ID,1,2,3,R,," false
     = Ok (SceneTransitionActors.mk "(unset)"
             [{| TransitionActor.name := "(unset)";
                 TransitionActor.id := "ID";
                 TransitionActor.pos := [inject_Z 1; inject_Z 2; inject_Z 3];
                 TransitionActor.rot := "R";
                 TransitionActor.params := "";
                 TransitionActor.isRoomTransition := Some true;
                 TransitionActor.roomFrom := Some 0;
                 TransitionActor.roomTo := Some 2;
                 TransitionActor.cameraFront := Some "1";
                 TransitionActor.cameraBack := Some "3" |}]).
Proof. repeat split; vm_compute; reflexivity. Qed.

(** C1, as stated, fails: the table that [new] builds for a room with one
    door is serialized by [getC], and [from_data] stops at its field-count
    assertion on that text, under either grouping convention. *)
Lemma from_data_rejects_getC :
  @SceneTransitionActors.new _ Sample.host "doors" Sample.one_door_scene tt 0
  = Ok Sample.door_table
  /\ @SceneTransitionActors.from_data _ Sample.host
       (source (@SceneTransitionActors.getC _ Sample.host Sample.door_table)) false
     = Err AssertionError
  /\ @SceneTransitionActors.from_data _ Sample.host
       (source (@SceneTransitionActors.getC _ Sample.host Sample.door_table)) true
     = Err AssertionError.
Proof. repeat split; vm_compute; reflexivity. Qed.

(** ** The statements on the sample scenes *)

#[local] Existing Instance Sample.blender.
#[local] Existing Instance Sample.host.

Ltac in_list := vm_compute; repeat (first [left; reflexivity | right]).

Lemma new_spawn_indices_contiguous_witness :
  (map fst Sample.spawn_dict = [2; 0; 1]
   /\ exists entries,
        @SceneEntranceActors.new _ Sample.host "spawns" Sample.spawn_scene tt 0
        = Ok (SceneEntranceActors.mk "spawns" entries)
        /\ map EntranceActor.spawnIndex entries = [Some 0; Some 1; Some 2]
        /\ Permutation entries (map snd Sample.spawn_dict))
  /\ (map fst Sample.gap_dict = [0; 2; 3]
      /\ @SceneEntranceActors.new _ Sample.host "spawns" Sample.gap_scene tt 0
         = Err SceneEntranceActors.not_consecutive).
Proof.
  split.
  - destruct (@new_spawn_indices_contiguous _ Sample.host Sample.spawn_scene tt 0
                "spawns" Sample.spawn_dict) as (K & _ & S);
      [vm_compute; reflexivity |].
    split; [reflexivity |]. apply S.
    change (Permutation [2; 0; 1] [0; 1; 2]).
    eapply perm_trans; [apply perm_swap | apply perm_skip, perm_swap].
  - destruct (@new_spawn_indices_contiguous _ Sample.host Sample.gap_scene tt 0
                "spawns" Sample.gap_dict) as (K & G & _);
      [vm_compute; reflexivity |].
    split; [reflexivity |]. apply G.
    change (~ Permutation [0; 2; 3] [0; 1; 2]).
    intros P. apply (Permutation_in 3) in P; [| simpl; tauto].
    simpl in P. intuition discriminate.
Defined.

Lemma new_repeated_spawn_index_witness :
  spawn_indices (H := Sample.host) 0 (entrance_markers Sample.repeated_scene) = [1; 1]
  /\ exists k,
       @SceneEntranceActors.new _ Sample.host "spawns" Sample.repeated_scene tt 0
       = Err (SceneEntranceActors.repeated_index k)
       /\ (2 <= count_occ Z.eq_dec
                  (spawn_indices (H := Sample.host) 0
                     (entrance_markers Sample.repeated_scene)) k)%nat
       /\ SceneEntranceActors.repeated_index k <> SceneEntranceActors.not_consecutive.
Proof.
  split; [reflexivity |].
  apply (@new_repeated_spawn_index _ Sample.host Sample.repeated_scene tt 0 "spawns").
  - change (entrance_markers Sample.repeated_scene)
      with [Sample.spawn 3 1 (Some Sample.room_a); Sample.spawn 4 1 (Some Sample.room_a)].
    repeat constructor; eexists; vm_compute; reflexivity.
  - change (~ NoDup [1; 1]). intros N. inversion N as [| x l I _]; subst.
    apply I. now left.
Defined.

(** C3, as stated, fails: two exported markers with a tied room claim the
    spawn index 1, and the build stops before it reaches them, with the
    error of the missing tied room of the marker in front of them. *)
Lemma repeated_index_after_missing_room :
  spawn_indices (H := Sample.host) 0
    (entrance_markers Sample.repeated_roomless_scene) = [0; 1; 1]
  /\ (exists e,
        @SceneEntranceActors.new_entry _ Sample.host Sample.repeated_roomless_scene tt 0
          (Sample.spawn 4 1 (Some Sample.room_a)) = Ok (Some e))
  /\ (exists e,
        @SceneEntranceActors.new_entry _ Sample.host Sample.repeated_roomless_scene tt 0
          (Sample.spawn 5 1 (Some Sample.room_a)) = Ok (Some e))
  /\ @SceneEntranceActors.new _ Sample.host "spawns" Sample.repeated_roomless_scene tt 0
     = Err (PluginError "ERROR: Missing room empty object assigned to the entrance.")
  /\ @SceneEntranceActors.new _ Sample.host "spawns" Sample.repeated_roomless_scene tt 0
     <> Err (SceneEntranceActors.repeated_index 1).
Proof.
  split; [reflexivity |].
  split; [eexists; vm_compute; reflexivity |].
  split; [eexists; vm_compute; reflexivity |].
  split; [vm_compute; reflexivity |].
  vm_compute. discriminate.
Qed.



Lemma new_same_room_entry_witness :
  TransitionActor.roomFrom Sample.door_entry = Some 0
  /\ TransitionActor.roomTo Sample.door_entry = Some 0
  /\ TransitionActor.cameraFront Sample.door_entry = Some "0x00"
  /\ TransitionActor.cameraBack Sample.door_entry = Some "0xFF"
  /\ TransitionActor.isRoomTransition Sample.door_entry = None
  /\ (In (Sample.door 2) (transition_markers Sample.one_door_scene) ->
      forall t,
        @SceneTransitionActors.new _ Sample.host "doors" Sample.one_door_scene tt 0 = Ok t ->
        In Sample.door_entry (SceneTransitionActors.entries t)).
Proof.
  apply (@new_same_room_entry _ Sample.host Sample.one_door_scene tt 0 "doors"
           (Sample.door 2) Sample.room_a Sample.door_entry).
  - vm_compute; reflexivity.
  - reflexivity.
  - exists [], []. split; [reflexivity |]. split; [| constructor].
    exists (Sample.door 2). split; [now left | split; reflexivity].
Defined.

(** C6, as stated, fails: the entry that [new] builds for a door that stays
    in its room has no [isRoomTransition] value. *)
Lemma same_room_entry_flag_unset :
  bpy.isRoomTransition (ootTransitionActorProperty (Sample.door 2)) = false
  /\ @SceneTransitionActors.new _ Sample.host "doors" Sample.one_door_scene tt 0
     = Ok (SceneTransitionActors.mk "doors" [Sample.door_entry])
  /\ TransitionActor.isRoomTransition Sample.door_entry = None
  /\ TransitionActor.isRoomTransition Sample.door_entry <> Some false.
Proof.
  split; [reflexivity |]. split; [vm_compute; reflexivity |].
  split; [reflexivity | discriminate].
Qed.



Lemma from_data_flat_table_witness :
  flat_table (SceneTransitionActors.entries Sample.two_room_table)
  = "{0,0x00,0,0xFF,ACTOR_EN_DOOR,4,2,-4,DEG_TO_BINANG(90.000),0x0001},"
    ++ "{1,0x00,1,0xFF,ACTOR_EN_DOOR,3,2,-4,DEG_TO_BINANG(90.000),0x0001},"
  /\ exists es',
       @SceneTransitionActors.from_data _ Sample.host
         (flat_table (SceneTransitionActors.entries Sample.two_room_table)) false
       = Ok (SceneTransitionActors.mk "(unset)" es')
       /\ Forall2 (read_back (H := Sample.host))
            (SceneTransitionActors.entries Sample.two_room_table) es'.
Proof.
  split; [reflexivity |].
  apply (@from_data_flat_table _ Sample.host).
  repeat constructor; unfold readable; do 8 eexists; repeat split; reflexivity.
Defined.

(** * Further properties of the parser *)

(** ** Empty fields at the end of a row *)

Lemma remove_first_trailing (l E : list string) :
  Forall (fun f => String.eqb f "" = false) l ->
  Py.remove_first "" (l ++ "" :: E)%list = (l ++ E)%list.
Proof.
  induction 1 as [|f l' Hf _ IH]; simpl; [reflexivity |].
  now rewrite Hf, IH.
Qed.

Lemma nth_error_trailing (l : list string) (m t : nat) :
  nth_error (l ++ repeat "" m)%list (List.length l + t)
  = if (t <? m)%nat then Some "" else None.
Proof.
  rewrite nth_error_app2 by lia.
  replace (List.length l + t - List.length l)%nat with t by lia.
  destruct (Nat.ltb_spec t m) as [L | L].
  - now apply nth_error_repeat.
  - apply nth_error_None. rewrite repeat_length. exact L.
Qed.

Section TrailingEmpty.
Variable l : list string.
Hypothesis l_plain : Forall (fun f => String.eqb f "" = false) l.

(** Over the non-empty fields the loop only moves on. *)
Lemma remove_empty_loop_advance (E : list string) (d : nat) :
  forall fuel i,
    (i + d = List.length l)%nat ->
    (List.length (l ++ E)%list - i < fuel)%nat ->
    Py.remove_empty_loop fuel i (l ++ E)%list
    = Py.remove_empty_loop fuel (List.length l) (l ++ E)%list.
Proof.
  induction d as [|d IH]; intros fuel i D F.
  - replace i with (List.length l) by lia. reflexivity.
  - destruct fuel as [|fuel]; [lia |]. rewrite length_app in F.
    set (R := Py.remove_empty_loop (S fuel) (List.length l) (l ++ E)%list).
    cbn [Py.remove_empty_loop].
    rewrite nth_error_app1 by lia.
    destruct (nth_error l i) as [p |] eqn:N;
      [| apply nth_error_None in N; lia].
    pose proof l_plain as P. rewrite Forall_forall in P.
    rewrite (P p (nth_error_In _ _ N)).
    rewrite IH by (rewrite ?length_app; lia).
    symmetry. apply remove_empty_loop_fuel; rewrite ?length_app; lia.
Qed.

(** Among the empty fields every turn drops the first of them and steps
    over the next. *)
Lemma remove_empty_loop_trailing (r : nat) :
  forall t fuel,
    (r < fuel)%nat ->
    Py.remove_empty_loop fuel (List.length l + t) (l ++ repeat "" (t + r))%list
    = (l ++ repeat "" (t + r / 2))%list.
Proof.
  induction r as [r IH] using lt_wf_ind. intros t fuel F.
  destruct fuel as [|fuel]; [lia |]. cbn [Py.remove_empty_loop].
  rewrite nth_error_trailing.
  destruct (Nat.ltb_spec t (t + r)) as [L | L].
  - cbn [String.eqb].
    replace (t + r)%nat with (S (t + (r - 1)))%nat by lia.
    cbn [repeat]. rewrite remove_first_trailing by exact l_plain.
    destruct (Nat.eq_dec r 1) as [-> | R1].
    + replace (t + (1 - 1))%nat with t by lia.
      replace (S (t + 0))%nat with (S t) by lia.
      replace (t + 1 / 2)%nat with t by (cbn; lia).
      destruct fuel as [|fuel]; [reflexivity |]. cbn [Py.remove_empty_loop].
      replace (S (List.length l + t))%nat with (List.length l + S t)%nat by lia.
      rewrite (nth_error_trailing l t (S t)).
      destruct (Nat.ltb_spec (S t) t); [lia | reflexivity].
    + replace (S (List.length l + t))%nat with (List.length l + S t)%nat by lia.
      replace (t + (r - 1))%nat with (S t + (r - 2))%nat by lia.
      rewrite IH by lia. f_equal. f_equal.
      assert (r / 2 = S ((r - 2) / 2))%nat as ->; [| lia].
      replace r with ((r - 2) + 1 * 2)%nat at 1 by lia.
      rewrite Nat.div_add by lia. lia.
  - assert (r = 0)%nat as -> by lia. cbn. now rewrite Nat.add_0_r.
Qed.

Lemma remove_empty_trailing (k : nat) :
  Py.remove_empty (l ++ repeat "" k)%list = (l ++ repeat "" (k / 2))%list.
Proof.
  unfold Py.remove_empty.
  rewrite (remove_empty_loop_advance (repeat "" k) (List.length l)) by lia.
  pose proof (remove_empty_loop_trailing k 0
                (S (List.length (l ++ repeat "" k)%list))) as T.
  rewrite Nat.add_0_r in T. cbn [Nat.add] in T. apply T.
  rewrite length_app, repeat_length. lia.
Qed.

End TrailingEmpty.

(** X3.  A row whose non-empty fields are followed by [k] empty ones, the
    text of [k] commas at its end, is read as the row that keeps [k / 2] of
    the empty fields: the loop under "trailing commas" drops every other
    one.  One comma at the end is harmless, two leave an empty field, and
    the row is refused whenever the fields that are left are not ten. *)
Theorem parse_entry_trailing_commas {B : Blender} {H : Host}
    (fields : list string) (k : nat) :
  fields <> [] -> forallb plain_field fields = true ->
  SceneTransitionActors.parse_entry (Py.join "," (fields ++ repeat "" k))
  = SceneTransitionActors.parse_fields (fields ++ repeat "" (k / 2))
  /\ (List.length fields + k / 2 <> 10 ->
      SceneTransitionActors.parse_entry (Py.join "," (fields ++ repeat "" k))
      = Err AssertionError)%nat.
Proof.
  intros NE Pl. destruct (plain_fields _ Pl) as (F0 & F1 & F2 & F3).
  assert (forall c, Forall (fun f => has_char c f = false) (repeat "" k)) as E
    by (intros c; apply Forall_forall; intros f I; apply repeat_spec in I;
        now subst).
  assert (SceneTransitionActors.parse_entry (Py.join "," (fields ++ repeat "" k))
          = SceneTransitionActors.parse_fields (fields ++ repeat "" (k / 2))) as P.
  { unfold SceneTransitionActors.parse_entry.
    rewrite (replace_absent "{")
      by (apply has_char_join; [reflexivity | now apply Forall_app]).
    rewrite (replace_absent "}")
      by (apply has_char_join; [reflexivity | now apply Forall_app]).
    rewrite split_join_comma;
      [| destruct fields; [contradiction | discriminate] | now apply Forall_app].
    now rewrite remove_empty_trailing. }
  split; [exact P |]. intros N. rewrite P. apply parse_fields_count.
  rewrite length_app, repeat_length. exact N.
Qed.

Lemma parse_entry_trailing_commas_witness :
  @SceneTransitionActors.parse_entry _ Sample.host "0,1,2,3,ID,1,2,3,R,P,"
  = @SceneTransitionActors.parse_fields _ Sample.host
      ["0"; "1"; "2"; "3"; "ID"; "1"; "2"; "3"; "R"; "P"]
  /\ @SceneTransitionActors.parse_entry _ Sample.host "0,1,2,3,ID,1,2,3,R,P,,,"
     = Err AssertionError.
Proof.
  split.
  - apply (proj1 (@parse_entry_trailing_commas _ Sample.host
                    ["0"; "1"; "2"; "3"; "ID"; "1"; "2"; "3"; "R"; "P"] 1
                    ltac:(discriminate) eq_refl)).
  - apply (proj2 (@parse_entry_trailing_commas _ Sample.host
                    ["0"; "1"; "2"; "3"; "ID"; "1"; "2"; "3"; "R"; "P"] 3
                    ltac:(discriminate) eq_refl)).
    vm_compute. discriminate.
Defined.

(** ** What [from_data] returns *)

Lemma mapM_ok {A B : Type} (f : A -> result B) (l : list A) :
  forall bs, mapM f l = Ok bs -> Forall2 (fun a b => f a = Ok b) l bs.
Proof.
  induction l as [|a l IH]; simpl; intros bs E.
  - injection E as <-. constructor.
  - destruct (f a) as [b |] eqn:Fa; simpl in E; [| discriminate].
    destruct (mapM f l) as [bs' |]; simpl in E; [| discriminate].
    injection E as <-. constructor; [exact Fa | now apply IH].
Qed.

Lemma mapM_app {A B : Type} (f : A -> result B) (l1 l2 : list A) :
  mapM f (l1 ++ l2)%list
  = (bs1 <- mapM f l1 ;; bs2 <- mapM f l2 ;; Ok (bs1 ++ bs2)%list).
Proof.
  induction l1 as [|a l1 IH]; simpl.
  - destruct (mapM f l2); reflexivity.
  - destruct (f a); simpl; [| reflexivity]. rewrite IH.
    destruct (mapM f l1); simpl; [| reflexivity].
    destruct (mapM f l2); reflexivity.
Qed.

Section Parsed.
Context {B : Blender} {H : Host}.

Lemma parse_fields_shape (params : list string) (e : TransitionActor.t) :
  SceneTransitionActors.parse_fields params = Ok e -> parsed_shape e.
Proof.
  unfold SceneTransitionActors.parse_fields.
  do 11 (destruct params as [|? params]; try discriminate).
  destruct (hexOrDecInt _) as [x |]; cbn [bind]; [| discriminate].
  destruct (hexOrDecInt _) as [y |]; cbn [bind]; [| discriminate].
  destruct (hexOrDecInt _) as [z |]; cbn [bind]; [| discriminate].
  destruct (if Py.contains _ _ then _ else _) as [r |]; cbn [bind]; [| discriminate].
  destruct (hexOrDecInt _) as [rf |]; cbn [bind]; [| discriminate].
  destruct (hexOrDecInt _) as [rt |]; cbn [bind]; [| discriminate].
  intros [= <-]. split; [reflexivity |].
  exists rf, rt, x, y, z. do 2 eexists. repeat split.
Qed.

(** X1.  Whatever the text and the convention, a table that [from_data]
    returns is called ["(unset)"], has one entry per non-empty chunk of the
    text, and each entry has the placeholder name, both rooms and both
    cameras set, three integers as position and an [isRoomTransition] flag
    that is false exactly when the two rooms are the same. *)
Theorem from_data_shape (raw_data : string) (not_zapd_assets : bool)
    (t : SceneTransitionActors.t) :
  SceneTransitionActors.from_data raw_data not_zapd_assets = Ok t ->
  SceneTransitionActors.name t = "(unset)"
  /\ List.length (SceneTransitionActors.entries t)
     = List.length
         (filter (fun entry => negb (String.eqb entry ""))
            (SceneTransitionActors.split_entries raw_data not_zapd_assets))
  /\ Forall parsed_shape (SceneTransitionActors.entries t)
  /\ Forall (fun e => TransitionActor.isRoomTransition e = Some false
                      <-> TransitionActor.roomFrom e = TransitionActor.roomTo e)
       (SceneTransitionActors.entries t).
Proof.
  unfold SceneTransitionActors.from_data.
  destruct (mapM _ _) as [es |] eqn:M; cbn [bind]; [| discriminate].
  intros [= <-]. cbn. apply mapM_ok in M.
  split; [reflexivity |]. split; [symmetry; eapply Forall2_length; exact M |].
  assert (Forall parsed_shape es) as S.
  { clear - M. induction M as [|c e l es P _ IH]; constructor; [| exact IH].
    unfold SceneTransitionActors.parse_entry in P.
    now apply parse_fields_shape in P. }
  split; [exact S |].
  eapply Forall_impl; [| exact S].
  intros e (_ & rf & rt & x & y & z & cf & cb & -> & -> & -> & _).
  destruct (Z.eqb_spec rf rt) as [-> | N]; cbn.
  - tauto.
  - split; [discriminate | intros [= E]; contradiction].
Qed.

End Parsed.

Lemma from_data_shape_witness :
  exists t,
    @SceneTransitionActors.from_data _ Sample.host
      "{0,1,2,3,ID,1,2,3,R,P},{4,1,4,3,ID,1,2,-3,R,P}," false = Ok t
    /\ SceneTransitionActors.name t = "(unset)"
    /\ List.length (SceneTransitionActors.entries t) = 2%nat
    /\ Forall parsed_shape (SceneTransitionActors.entries t).
Proof.
  eexists. split; [vm_compute; reflexivity |].
  destruct (@from_data_shape _ Sample.host
              "{0,1,2,3,ID,1,2,3,R,P},{4,1,4,3,ID,1,2,-3,R,P}," false _
              ltac:(vm_compute; reflexivity)) as (N & L & S & _).
  split; [exact N |]. split; [reflexivity | exact S].
Defined.


(** ** A malformed row in a table *)

Lemma join_empty_app (l1 l2 : list string) :
  Py.join "" (l1 ++ l2) = Py.join "" l1 ++ Py.join "" l2.
Proof.
  unfold Py.join. induction l1 as [|x l1 IH]; [reflexivity |].
  cbn [app]. destruct l1 as [|y l1].
  - cbn [app concat]. destruct l2; cbn; [now rewrite append_nil_r | reflexivity].
  - change (concat "" (x :: (y :: l1) ++ l2)%list)
      with (x ++ "" ++ concat "" ((y :: l1) ++ l2)%list).
    rewrite IH. cbn. now rewrite append_assoc.
Qed.

Lemma split_rows_app (bodies : list string) (rest : string) :
  Forall (fun b => has_char "}" b = false) bodies ->
  Py.split "}," (Py.join "" (map (fun b => b ++ "},") bodies) ++ rest)
  = (bodies ++ Py.split "}," rest)%list.
Proof.
  unfold Py.split.
  induction 1 as [|b l Hb Hl IH]; [reflexivity |].
  change (map (fun b => b ++ "},") (b :: l))
    with ([(b ++ "},")%string] ++ map (fun b => (b ++ "},")%string) l)%list.
  rewrite join_empty_app. cbn [Py.join concat].
  rewrite !append_assoc. rewrite split_go_field by exact Hb.
  cbn [append app]. now rewrite IH.
Qed.

Section Malformed.
Context {B : Blender} {H : Host}.

Lemma parse_entry_braced_wrong_count (fields : list string) :
  fields <> [] -> forallb plain_field fields = true ->
  List.length fields <> 10%nat ->
  SceneTransitionActors.parse_entry (String "{" (Py.join "," fields))
  = Err AssertionError.
Proof.
  intros NE Pl N. destruct (plain_fields _ Pl) as (F0 & F1 & F2 & F3).
  unfold SceneTransitionActors.parse_entry.
  rewrite replace_leading by (now apply has_char_join).
  rewrite (replace_absent "}") by (now apply has_char_join).
  rewrite split_join_comma by assumption.
  unfold Py.remove_empty. rewrite remove_empty_loop_plain by assumption.
  now apply parse_fields_count.
Qed.

(** X2.  There is no partial table: when the rows of a flat table are
    followed by a row of plain fields that are not ten in number, [from_data]
    raises the assertion error, whatever the rows in front of it held and
    whatever text comes after it. *)
Theorem from_data_malformed_row (es : list TransitionActor.t)
    (fields : list string) (rest : string) :
  Forall readable es ->
  fields <> [] -> forallb plain_field fields = true ->
  List.length fields <> 10%nat ->
  SceneTransitionActors.from_data
    (flat_table es ++ ("{" ++ Py.join "," fields ++ "},") ++ rest) false
  = Err AssertionError.
Proof.
  intros R NE Pl N.
  destruct (mapM_flat_bodies es R) as (es' & E & _).
  pose proof (parse_entry_braced_wrong_count fields NE Pl N) as Bad.
  destruct (plain_fields _ Pl) as (_ & _ & _ & F3).
  unfold SceneTransitionActors.from_data, SceneTransitionActors.split_entries.
  assert (flat_table es ++ ("{" ++ Py.join "," fields ++ "},") ++ rest
          = Py.join "" (map (fun b => b ++ "},")
                          (map flat_body es ++ [String "{" (Py.join "," fields)]))
            ++ rest) as ->.
  { rewrite map_app, join_empty_app, flat_table_rows, !append_assoc.
    cbn. now rewrite !append_assoc. }
  rewrite split_rows_app.
  - rewrite !filter_app. cbn [filter String.eqb negb].
    assert (filter (fun entry => negb (String.eqb entry "")) (map flat_body es)
            = map flat_body es) as ->.
    { clear. induction es as [|a l IH]; simpl; [reflexivity | now rewrite IH]. }
    rewrite <- app_assoc, mapM_app, E. cbn [bind app mapM]. now rewrite Bad.
  - apply Forall_app. split.
    + apply Forall_map. eapply Forall_impl; [| exact R].
      intros a Ha. now apply flat_body_plain, readable_plain.
    + constructor; [| constructor].
      change (has_char "}" (Py.join "," fields) = false).
      now apply has_char_join.
Qed.

End Malformed.

Lemma from_data_malformed_row_witness :
  @SceneTransitionActors.from_data _ Sample.host
    (flat_table (SceneTransitionActors.entries Sample.two_room_table)
     ++ ("{" ++ Py.join "," ["0"; "1"; "2"; "3"; "ID"; "1"; "2"; "3"; "R"] ++ "},")
     ++ "anything}, at all") false
  = Err AssertionError.
Proof.
  apply (@from_data_malformed_row _ Sample.host).
  - repeat constructor; unfold readable; do 8 eexists; repeat split; reflexivity.
  - discriminate.
  - reflexivity.
  - vm_compute. discriminate.
Defined.

(** * Further properties of the transition table *)

(** ** What [actorToRoom] holds *)

Section ActorToRoomLookup.
Context {B : Blender} {H : Host}.

Lemma room_holds_dec (room obj : Object) :
  {room_holds room obj} + {~ room_holds room obj}.
Proof.
  destruct (existsb (fun c => Nat.eqb (oid c) (oid obj) && is_transition_marker c)
              (children_recursive room)) eqn:E.
  - left. apply existsb_exists in E. destruct E as (c & I & C).
    apply andb_true_iff in C. destruct C as [C1 C2].
    exists c. apply Nat.eqb_eq in C1. auto.
  - right. intros (c & I & C1 & C2).
    assert (existsb (fun c => Nat.eqb (oid c) (oid obj) && is_transition_marker c)
              (children_recursive room) = true) as T.
    { apply existsb_exists. exists c. split; [exact I |].
      rewrite C2. apply Nat.eqb_eq in C1. now rewrite C1. }
    congruence.
Qed.

Lemma actorToRoom_snoc (rs : list Object) (r : Object) :
  SceneTransitionActors.actorToRoom_of (rs ++ [r])
  = fold_left
      (fun d childObj =>
         if String.eqb (type childObj) "EMPTY"
            && String.eqb (ootEmptyType childObj) "Transition Actor"
         then Py.dict_set Nat.eqb (oid childObj) r d
         else d)
      (children_recursive r) (SceneTransitionActors.actorToRoom_of rs).
Proof.
  unfold SceneTransitionActors.actorToRoom_of. now rewrite fold_left_app.
Qed.

Lemma actorToRoom_lookup (rs : list Object) (obj : Object) :
  match Py.dict_get Nat.eqb (oid obj) (SceneTransitionActors.actorToRoom_of rs) with
  | Some room =>
      exists before after,
        rs = (before ++ room :: after)%list
        /\ room_holds room obj
        /\ Forall (fun r => ~ room_holds r obj) after
  | None => Forall (fun r => ~ room_holds r obj) rs
  end.
Proof.
  induction rs as [|r rs IH] using rev_ind; [constructor |].
  rewrite actorToRoom_snoc.
  destruct (room_holds_dec r obj) as [Y | N].
  - rewrite (fill_hit r obj Y). exists rs, []. auto.
  - rewrite (fill_miss r obj N).
    destruct (Py.dict_get _ _ _) as [room |].
    + destruct IH as (before & after & -> & Hr & Ha).
      exists before, (after ++ [r])%list. rewrite <- app_assoc.
      split; [reflexivity |]. split; [exact Hr |].
      apply Forall_app. split; [exact Ha | now constructor].
    + apply Forall_app. split; [exact IH | now constructor].
Qed.

Lemma actorToRoom_none (rs : list Object) (obj : Object) :
  Forall (fun r => ~ room_holds r obj) rs ->
  Py.dict_get Nat.eqb (oid obj) (SceneTransitionActors.actorToRoom_of rs) = None.
Proof.
  intros F. pose proof (actorToRoom_lookup rs obj) as L.
  destruct (Py.dict_get _ _ _) as [room |]; [| reflexivity].
  destruct L as (before & after & E & Hr & _).
  rewrite E in F. apply Forall_app in F. destruct F as [_ F].
  inversion F; subst. contradiction.
Qed.

(** X4.  [actorToRoom] has no entry for a marker exactly when no room of
    the scene has the marker among its descendants, and it maps the marker
    to a room exactly when that room is the last room of the room list that
    has it. *)
Theorem actorToRoom_spec (sceneObj obj : Object) :
  (Py.dict_get Nat.eqb (oid obj)
     (SceneTransitionActors.actorToRoom_of (rooms sceneObj)) = None
   <-> Forall (fun r => ~ room_holds r obj) (rooms sceneObj))
  /\ forall room,
       Py.dict_get Nat.eqb (oid obj)
         (SceneTransitionActors.actorToRoom_of (rooms sceneObj)) = Some room
       <-> owning_room sceneObj room obj.
Proof.
  pose proof (actorToRoom_lookup (rooms sceneObj) obj) as L.
  split.
  - split.
    + intros E. now rewrite E in L.
    + apply actorToRoom_none.
  - intros room. split.
    + intros E. rewrite E in L. exact L.
    + apply actorToRoom_owning.
Qed.

End ActorToRoomLookup.

(** ** The entries of the transition table *)

Section TransitionEntries.
Context {B : Blender} {H : Host}.
Variables (sceneObj : Object) (transform : Matrix) (headerIndex : Z).

Notation actorToRoom := (SceneTransitionActors.actorToRoom_of (rooms sceneObj)).
Notation entry_of atr :=
  (SceneTransitionActors.new_entry atr sceneObj transform headerIndex).

(** X5.  The entry of a marker that is flagged as room-crossing does not
    depend on [actorToRoom]: its rooms are the indices of the "from" and the
    "to" room of the marker, each next to the camera value of its side. *)
Theorem new_crossing_entry (obj : Object) :
  bpy.isRoomTransition (ootTransitionActorProperty obj) = true ->
  (forall atr atr', entry_of atr obj = entry_of atr' obj)
  /\ forall atr e,
       entry_of atr obj = Ok (Some e) ->
       exists roomF roomT,
         fromRoom (ootTransitionActorProperty obj) = Some roomF
         /\ toRoom (ootTransitionActorProperty obj) = Some roomT
         /\ TransitionActor.roomFrom e = Some (roomIndex (ootRoomHeader roomF))
         /\ TransitionActor.roomTo e = Some (roomIndex (ootRoomHeader roomT))
         /\ TransitionActor.cameraFront e
            = Some (getPropValue (ootTransitionActorProperty obj)
                      "cameraTransitionFront")
         /\ TransitionActor.cameraBack e
            = Some (getPropValue (ootTransitionActorProperty obj)
                      "cameraTransitionBack").
Proof.
  intros C. split.
  - intros atr atr'. unfold SceneTransitionActors.new_entry. now rewrite C.
  - intros atr e. unfold SceneTransitionActors.new_entry. rewrite C.
    destruct (is_exported _ _); [| discriminate].
    destruct (getConvertedTransform transform sceneObj obj true) as [pos rot].
    destruct (fromRoom _) as [roomF |], (toRoom _) as [roomT |];
      cbn [bind]; try discriminate.
    destruct (actor_name _); cbn [bind]; [| discriminate].
    intros [= <-]. exists roomF, roomT. cbn. repeat split.
Qed.

(** X6.  A transition marker that no room of the scene has among its
    descendants makes [new] raise [KeyError]: the sort reads [actorToRoom]
    for every marker of the scene, before the loop and its guard, so this
    holds for markers that would not be exported as well. *)
Theorem new_marker_outside_rooms (name : string) (obj : Object) :
  In obj (transition_markers sceneObj) ->
  Forall (fun r => ~ room_holds r obj) (rooms sceneObj) ->
  SceneTransitionActors.new name sceneObj transform headerIndex = Err KeyError.
Proof.
  intros I F. apply actorToRoom_none in F.
  unfold SceneTransitionActors.new.
  fold (rooms sceneObj). fold (transition_markers sceneObj).
  unfold SceneTransitionActors.sort_by_room.
  assert (SceneTransitionActors.owning_room_index actorToRoom obj = Err KeyError)
    as K by (unfold SceneTransitionActors.owning_room_index; now rewrite F).
  destruct (mapM_in_err _ _ _ _ I K) as [e M]. rewrite M. cbn [bind].
  apply mapM_err in M. destruct M as (o & _ & Ko).
  unfold SceneTransitionActors.owning_room_index in Ko.
  destruct (Py.dict_get Nat.eqb (oid o) _); [discriminate |].
  now injection Ko as <-.
Qed.

Lemma transition_entry_fields (atr : Py.dict nat Object) (obj : Object)
    (e : TransitionActor.t) :
  entry_of atr obj = Ok (Some e) ->
  exists rf rt cf cb x y z,
    TransitionActor.roomFrom e = Some rf /\ TransitionActor.roomTo e = Some rt
    /\ TransitionActor.cameraFront e = Some cf
    /\ TransitionActor.cameraBack e = Some cb
    /\ TransitionActor.pos e = [x; y; z]
    /\ TransitionActor.roomData e
       = "{ " ++ Py.str_int rf ++ ", " ++ cf ++ ", "
         ++ Py.str_int rt ++ ", " ++ cb ++ " }".
Proof.
  unfold SceneTransitionActors.new_entry.
  destruct (is_exported _ _); [| discriminate].
  destruct (getConvertedTransform transform sceneObj obj true) as [pos rot].
  destruct (if bpy.isRoomTransition _ then _ else _) as [ix |]; cbn [bind];
    [| discriminate].
  destruct (actor_name _); cbn [bind]; [| discriminate].
  intros [= <-]. do 7 eexists. repeat (split; [reflexivity |]).
  unfold TransitionActor.roomData, Py.join. cbn.
  repeat (rewrite !append_assoc; cbn). reflexivity.
Qed.

(** X7.  A table that [new] returns has as many entries as the scene has
    exported transition markers, and every entry has both rooms, both
    cameras and three position components: the room and camera group of its
    row is made of two integers and two camera values, never of a missing
    one. *)
Theorem new_entries_complete (name : string) (t : SceneTransitionActors.t) :
  SceneTransitionActors.new name sceneObj transform headerIndex = Ok t ->
  List.length (SceneTransitionActors.entries t)
  = List.length (filter (transition_exported headerIndex) (transition_markers sceneObj))
  /\ Forall
       (fun e =>
          exists rf rt cf cb x y z,
            TransitionActor.roomFrom e = Some rf /\ TransitionActor.roomTo e = Some rt
            /\ TransitionActor.cameraFront e = Some cf
            /\ TransitionActor.cameraBack e = Some cb
            /\ TransitionActor.pos e = [x; y; z]
            /\ TransitionActor.roomData e
               = "{ " ++ Py.str_int rf ++ ", " ++ cf ++ ", "
                 ++ Py.str_int rt ++ ", " ++ cb ++ " }")
       (SceneTransitionActors.entries t).
Proof.
  intros T. destruct (transitions_new_ok _ _ _ name t T) as (pairs & _ & _ & P & F).
  split.
  - rewrite <- (Forall2_length F), <- (Permutation_length P). now rewrite length_map.
  - clear - F. induction F as [|p e ps es E _ IH]; constructor; [| exact IH].
    eapply transition_entry_fields. exact E.
Qed.

End TransitionEntries.

(** ** The sort is stable *)

Lemma insert_by_filter {A : Type} (key : A -> Z) (k : Z) (x : A) (l : list A) :
  filter (fun y => (key y =? k)%Z) (Py.insert_by key x l)
  = filter (fun y => (key y =? k)%Z) (x :: l).
Proof.
  induction l as [|y l IH]; [reflexivity |].
  cbn [Py.insert_by]. destruct (Z.leb_spec (key x) (key y)) as [L | L];
    [reflexivity |].
  cbn [filter] in *. rewrite IH.
  destruct (Z.eqb_spec (key y) k) as [Ey | Ny];
    destruct (Z.eqb_spec (key x) k) as [Ex | Nx]; try reflexivity.
  lia.
Qed.

Lemma sorted_by_filter {A : Type} (key : A -> Z) (k : Z) (l : list A) :
  filter (fun y => (key y =? k)%Z) (Py.sorted_by key l)
  = filter (fun y => (key y =? k)%Z) l.
Proof.
  induction l as [|x l IH]; [reflexivity |].
  cbn [Py.sorted_by]. rewrite insert_by_filter. cbn [filter]. now rewrite IH.
Qed.

Lemma filter_comm {A : Type} (f g : A -> bool) (l : list A) :
  filter f (filter g l) = filter g (filter f l).
Proof.
  induction l as [|x l IH]; [reflexivity |]. cbn [filter].
  destruct (f x) eqn:Fx, (g x) eqn:Gx; cbn [filter];
    rewrite ?Fx, ?Gx, IH; reflexivity.
Qed.

Section Stable.
Context {B : Blender} {H : Host}.
Variables (sceneObj : Object) (transform : Matrix) (headerIndex : Z).

Notation actorToRoom := (SceneTransitionActors.actorToRoom_of (rooms sceneObj)).

Lemma filter_in_room_pairs (atr : Py.dict nat Object) (k : Z)
    (ps : list (Z * Object)) :
  Forall (fun p => SceneTransitionActors.owning_room_index atr (snd p) = Ok (fst p)) ps ->
  filter (in_room atr k) (map snd ps)
  = map snd (filter (fun p => (fst p =? k)%Z) ps).
Proof.
  induction 1 as [|p ps Hp _ IH]; [reflexivity |].
  cbn [map filter]. unfold in_room at 1. rewrite Hp.
  destruct (fst p =? k)%Z; cbn [map]; now rewrite IH.
Qed.

Lemma sort_by_room_stable (atr : Py.dict nat Object) (objs sorted : list Object)
    (k : Z) :
  SceneTransitionActors.sort_by_room atr objs = Ok sorted ->
  filter (in_room atr k) sorted = filter (in_room atr k) objs.
Proof.
  unfold SceneTransitionActors.sort_by_room.
  destruct (mapM _ objs) as [keys |] eqn:M; cbn [bind]; [| discriminate].
  intros [= <-]. destruct (mapM_combine _ _ _ M) as [F S].
  rewrite (filter_in_room_pairs atr k (Py.sorted_by fst (combine keys objs)))
    by (eapply Permutation_Forall; [symmetry; apply sorted_by_perm | exact F]).
  rewrite sorted_by_filter, <- (filter_in_room_pairs atr k) by exact F.
  now rewrite S.
Qed.

(** X8.  The markers of one room keep the order of the scene: the entries
    of a table that [new] returns are built from the exported markers in an
    order that, restricted to the markers owned by a room of any given
    index, is the order in which the scene lists them. *)
Theorem new_keeps_room_order (name : string) (t : SceneTransitionActors.t) :
  SceneTransitionActors.new name sceneObj transform headerIndex = Ok t ->
  exists objs,
    Forall2 (fun obj e =>
               SceneTransitionActors.new_entry actorToRoom sceneObj transform
                 headerIndex obj = Ok (Some e))
      objs (SceneTransitionActors.entries t)
    /\ forall k,
         filter (in_room actorToRoom k) objs
         = filter (in_room actorToRoom k)
             (filter (transition_exported headerIndex) (transition_markers sceneObj)).
Proof.
  unfold SceneTransitionActors.new.
  fold (rooms sceneObj). fold (transition_markers sceneObj).
  destruct (SceneTransitionActors.sort_by_room _ _) as [sorted |] eqn:S;
    cbn [bind]; [| discriminate].
  destruct (SceneTransitionActors.new_loop _ _ _ _ sorted) as [es |] eqn:L;
    cbn [bind]; [| discriminate].
  intros [= <-]. cbn.
  exists (filter (transition_exported headerIndex) sorted).
  split; [now apply new_loop_ok |].
  intros k. rewrite filter_comm, (sort_by_room_stable _ _ _ k S).
  apply filter_comm.
Qed.

End Stable.

(** ** The further statements on the sample scenes *)

Lemma new_crossing_entry_witness :
  exists e,
    @SceneTransitionActors.new_entry _ Sample.host [] Sample.through_scene tt 0
      Sample.through_door = Ok (Some e)
    /\ exists roomF roomT,
         fromRoom (ootTransitionActorProperty Sample.through_door) = Some roomF
         /\ toRoom (ootTransitionActorProperty Sample.through_door) = Some roomT
         /\ TransitionActor.roomFrom e = Some (roomIndex (ootRoomHeader roomF))
         /\ TransitionActor.roomTo e = Some (roomIndex (ootRoomHeader roomT))
         /\ TransitionActor.cameraFront e = Some "0x00"
         /\ TransitionActor.cameraBack e = Some "0xFF".
Proof.
  eexists. split; [vm_compute; reflexivity |].
  exact (proj2 (@new_crossing_entry _ Sample.host Sample.through_scene tt 0
                  Sample.through_door eq_refl) [] _ ltac:(vm_compute; reflexivity)).
Defined.

Lemma new_marker_outside_rooms_witness :
  transition_exported (H := Sample.host) 0 Sample.stray_door = false
  /\ @SceneTransitionActors.new _ Sample.host "doors" Sample.stray_scene tt 0
     = Err KeyError.
Proof.
  split; [reflexivity |].
  apply (@new_marker_outside_rooms _ Sample.host Sample.stray_scene tt 0 "doors"
           Sample.stray_door).
  - in_list.
  - change (rooms Sample.stray_scene) with [Sample.room_a].
    constructor; [| constructor].
    intros (c & I & E & _). destruct I as [<- | []]. discriminate.
Defined.

Lemma new_entries_complete_witness :
  List.length (SceneTransitionActors.entries Sample.two_room_table) = 2%nat
  /\ Forall
       (fun e =>
          exists rf rt cf cb x y z,
            TransitionActor.roomFrom e = Some rf /\ TransitionActor.roomTo e = Some rt
            /\ TransitionActor.cameraFront e = Some cf
            /\ TransitionActor.cameraBack e = Some cb
            /\ TransitionActor.pos e = [x; y; z]
            /\ TransitionActor.roomData e
               = "{ " ++ Py.str_int rf ++ ", " ++ cf ++ ", "
                 ++ Py.str_int rt ++ ", " ++ cb ++ " }")
       (SceneTransitionActors.entries Sample.two_room_table).
Proof.
  exact (@new_entries_complete _ Sample.host Sample.two_room_scene tt 0 "doors"
           Sample.two_room_table ltac:(vm_compute; reflexivity)).
Defined.

Lemma new_keeps_room_order_witness :
  exists t,
    @SceneTransitionActors.new _ Sample.host "doors" Sample.busy_scene tt 0 = Ok t
    /\ map TransitionActor.pos (SceneTransitionActors.entries t)
       = map (fun i => [inject_Z i; 5 # 2; -7 # 2]) [5; 4; 6; 3]
    /\ exists objs,
         Forall2 (fun obj e =>
                    @SceneTransitionActors.new_entry _ Sample.host
                      (SceneTransitionActors.actorToRoom_of (rooms Sample.busy_scene))
                      Sample.busy_scene tt 0 obj = Ok (Some e))
           objs (SceneTransitionActors.entries t)
         /\ forall k,
              filter (in_room (SceneTransitionActors.actorToRoom_of
                                 (rooms Sample.busy_scene)) k) objs
              = filter (in_room (SceneTransitionActors.actorToRoom_of
                                   (rooms Sample.busy_scene)) k)
                  (filter (transition_exported (H := Sample.host) 0)
                     (transition_markers Sample.busy_scene)).
Proof.
  eexists. split; [vm_compute; reflexivity |]. split; [reflexivity |].
  apply (@new_keeps_room_order _ Sample.host Sample.busy_scene tt 0 "doors").
  vm_compute; reflexivity.
Defined.

(** * Further properties of the entrance table *)

Lemma sorted_pairs_unique {A : Type} (key : A -> Z) (l1 l2 : list A) :
  StronglySorted (fun x y => key x <= key y)%Z l1 ->
  StronglySorted (fun x y => key x <= key y)%Z l2 ->
  Permutation l1 l2 -> NoDup (map key l1) -> l1 = l2.
Proof.
  intros S1. revert l2.
  induction S1 as [|a l1 S1 IH Ha]; intros l2 S2 P D.
  - apply Permutation_nil in P. now subst.
  - destruct S2 as [|b l2 S2 Hb].
    + symmetry in P. apply Permutation_nil in P. discriminate.
    + assert (a = b) as ->.
      { assert (In a (b :: l2)) as Ia by (eapply Permutation_in; [exact P | now left]).
        assert (In b (a :: l1)) as Ib
          by (eapply Permutation_in; [symmetry; exact P | now left]).
        rewrite Forall_forall in Ha, Hb.
        destruct Ia as [-> | Ia]; [reflexivity |].
        destruct Ib as [-> | Ib]; [reflexivity |].
        specialize (Ha _ Ib). specialize (Hb _ Ia).
        exfalso. cbn in D. inversion D as [| x l N _]; subst. apply N.
        assert (key a = key b) as -> by lia. now apply in_map. }
      f_equal. cbn in D. inversion D; subst.
      apply IH; [exact S2 | | assumption].
      eapply Permutation_cons_inv. exact P.
Qed.

Lemma sorted_by_perm_unique {A : Type} (key : A -> Z) (l l' : list A) :
  Permutation l l' -> NoDup (map key l) ->
  Py.sorted_by key l = Py.sorted_by key l'.
Proof.
  intros P D. apply (sorted_pairs_unique key).
  - apply sorted_by_sorted.
  - apply sorted_by_sorted.
  - rewrite !sorted_by_perm. exact P.
  - eapply Permutation_NoDup; [| exact D].
    apply Permutation_map. symmetry. apply sorted_by_perm.
Qed.

Lemma Permutation_flat_map_same {A C : Type} (f : A -> list C) (l l' : list A) :
  Permutation l l' -> Permutation (flat_map f l) (flat_map f l').
Proof.
  induction 1 as [| x l l' _ IH | x y l | l l' l'' _ IH1 _ IH2]; cbn [flat_map].
  - constructor.
  - now apply Permutation_app_head.
  - rewrite !app_assoc. apply Permutation_app_tail, Permutation_app_comm.
  - now transitivity (flat_map f l').
Qed.

Section EntranceOrder.
Context {B : Blender} {H : Host}.
Variables (sceneObj : Object) (transform : Matrix) (headerIndex : Z).

Notation new_entry := (SceneEntranceActors.new_entry sceneObj transform headerIndex).
Notation collect := (SceneEntranceActors.collect sceneObj transform headerIndex).
Notation items := (entrance_items sceneObj transform headerIndex).

(** The dictionary at the end of the loop holds the items of the objects,
    in the order of the objects, after what it held before. *)
Lemma collect_items (objs : list Object) :
  forall d0 d, collect objs d0 = Ok d ->
    d = (d0 ++ items objs)%list
    /\ Forall (fun obj => exists r, new_entry obj = Ok r) objs
    /\ (NoDup (map fst d0) -> NoDup (map fst d)).
Proof.
  unfold entrance_items.
  induction objs as [|obj objs IH]; cbn [SceneEntranceActors.collect flat_map];
    intros d0 d E.
  - injection E as <-. rewrite app_nil_r. auto.
  - destruct (new_entry obj) as [[e |] | e'] eqn:N; cbn [bind] in E;
      [| | discriminate].
    + destruct (Py.dict_get Z.eqb _ d0) eqn:G; [discriminate |].
      rewrite (dict_set_new Z.eqb _ _ _ G) in E. apply IH in E.
      destruct E as (-> & F & D).
      split; [now rewrite <- app_assoc |].
      split; [constructor; [eexists; exact N | exact F] |].
      intros ND. apply D. rewrite map_app. cbn.
      apply NoDup_app; [exact ND | repeat constructor; simpl; tauto |].
      intros k I [<- | []]. apply (dict_get_none Z.eqb Z.eqb_eq) in G.
      contradiction.
    + apply IH in E. destruct E as (-> & F & D).
      split; [reflexivity |].
      split; [constructor; [eexists; exact N | exact F] | exact D].
Qed.

(** The loop runs to its end when every entry can be built and no spawn
    index comes twice. *)
Lemma collect_runs (objs : list Object) :
  forall d0,
    Forall (fun obj => exists r, new_entry obj = Ok r) objs ->
    NoDup (map fst (d0 ++ items objs)%list) ->
    collect objs d0 = Ok (d0 ++ items objs)%list.
Proof.
  unfold entrance_items.
  induction objs as [|obj objs IH]; cbn [SceneEntranceActors.collect flat_map];
    intros d0 F D.
  - now rewrite app_nil_r.
  - inversion F as [| o l [r R] F']; subst. rewrite R in *. cbn [bind].
    destruct r as [e |].
    + cbn [app] in D.
      assert (Py.dict_get Z.eqb (bpy.spawnIndex (ootEntranceProperty obj)) d0 = None)
        as G.
      { apply (dict_get_none Z.eqb Z.eqb_eq). intros I.
        pose proof D as D0. rewrite map_app in D0. cbn [map fst] in D0.
        apply NoDup_remove_2 in D0. apply D0. apply in_or_app. now left. }
      rewrite G, (dict_set_new Z.eqb _ _ _ G).
      rewrite IH; [now rewrite <- app_assoc | exact F' |].
      now rewrite <- app_assoc.
    + cbn [app] in D. now apply IH.
Qed.

(** X9.  The table does not depend on the order in which the markers are
    visited: when the loop of [new] runs to its end on a list of objects,
    it does so on every list with the same objects in another order, and the
    end of [new] turns both dictionaries into the same result. *)
Theorem entrance_table_order (name : string) (objs objs' : list Object)
    (d : Py.dict Z EntranceActor.t) :
  Permutation objs objs' ->
  collect objs [] = Ok d ->
  exists d',
    collect objs' [] = Ok d'
    /\ Permutation d d'
    /\ SceneEntranceActors.finish name d' = SceneEntranceActors.finish name d.
Proof.
  intros P C. destruct (collect_items objs [] d C) as (-> & F & D).
  cbn [app] in *. specialize (D (NoDup_nil _)).
  assert (Permutation (items objs) (items objs')) as Pi
    by (now apply Permutation_flat_map_same).
  exists (items objs'). split; [| split; [exact Pi |]].
  - apply (collect_runs objs' []).
    + eapply Permutation_Forall; [exact P | exact F].
    + cbn [app]. eapply Permutation_NoDup; [| exact D]. now apply Permutation_map.
  - unfold SceneEntranceActors.finish.
    now rewrite (sorted_by_perm_unique fst (items objs) (items objs') Pi D).
Qed.

End EntranceOrder.

Lemma entrance_table_order_witness :
  exists d',
    @SceneEntranceActors.collect _ Sample.host Sample.spawn_scene tt 0
      Sample.spawn_markers_shuffled [] = Ok d'
    /\ Permutation Sample.spawn_dict d'
    /\ @SceneEntranceActors.finish "spawns" d'
       = @SceneEntranceActors.finish "spawns" Sample.spawn_dict.
Proof.
  apply (@entrance_table_order _ Sample.host Sample.spawn_scene tt 0 "spawns"
           Sample.spawn_markers Sample.spawn_markers_shuffled).
  - unfold Sample.spawn_markers, Sample.spawn_markers_shuffled.
    eapply perm_trans; [apply perm_skip, perm_swap | apply perm_swap].
  - vm_compute; reflexivity.
Defined.

(** ** The text for a table that [new] returns *)

Lemma Forall_exists_Forall2 {A C : Type} (P : A -> C -> Prop) (l : list A) :
  Forall (fun a => exists c, P a c) l -> exists cs, Forall2 P l cs.
Proof.
  induction 1 as [|a l [c Pc] _ [cs IH]].
  - exists []. constructor.
  - exists (c :: cs). now constructor.
Qed.

Section EntranceText.
Context {B : Blender} {H : Host}.
Variables (sceneObj : Object) (transform : Matrix) (headerIndex : Z).

Notation new_entry := (SceneEntranceActors.new_entry sceneObj transform headerIndex).
Notation items := (entrance_items sceneObj transform headerIndex).

Lemma entrance_entry_fields (obj : Object) (e : EntranceActor.t) :
  new_entry obj = Ok (Some e) ->
  entrance_exported headerIndex obj = true
  /\ EntranceActor.spawnIndex e = Some (bpy.spawnIndex (ootEntranceProperty obj))
  /\ exists r, EntranceActor.roomIndex e = Some r.
Proof.
  intros N. destruct (entrance_exported headerIndex obj) eqn:X.
  - pose proof (new_entry_exported sceneObj transform headerIndex obj _ X N)
      as (S & room & _ & R).
    split; [reflexivity |]. split; [exact S | eexists; exact R].
  - rewrite (new_entry_skipped sceneObj transform headerIndex obj X) in N.
    discriminate.
Qed.

Lemma items_fields (objs : list Object) :
  Forall (fun p => EntranceActor.spawnIndex (snd p) = Some (fst p)
                   /\ exists r, EntranceActor.roomIndex (snd p) = Some r)
    (items objs).
Proof.
  unfold entrance_items. induction objs as [|obj objs IH]; cbn [flat_map];
    [constructor |].
  destruct (new_entry obj) as [[e |] | e'] eqn:N; cbn [app]; try exact IH.
  constructor; [| exact IH]. cbn.
  destruct (entrance_entry_fields obj e N) as (_ & S & R). auto.
Qed.

Lemma items_keys (objs : list Object) :
  Forall (fun obj => exists r, new_entry obj = Ok r) objs ->
  map fst (items objs) = spawn_indices headerIndex objs.
Proof.
  unfold entrance_items, spawn_indices.
  induction 1 as [|obj objs [r R] _ IH]; cbn [flat_map filter]; [reflexivity |].
  rewrite R. destruct r as [e |].
  - destruct (entrance_entry_fields obj e R) as (X & _). rewrite X.
    cbn. now rewrite IH.
  - destruct (entrance_exported headerIndex obj) eqn:X; [| exact IH].
    pose proof (new_entry_exported sceneObj transform headerIndex obj _ X R) as [].
Qed.

Lemma spawn_rows (es : list EntranceActor.t) :
  forall ks rs,
    map EntranceActor.spawnIndex es = map Some ks ->
    Forall2 (fun e r => EntranceActor.roomIndex e = Some r) es rs ->
    map EntranceActor.getEntryC es
    = map (fun p => indent ++ "{ " ++ Py.str_int (fst p) ++ ", "
                    ++ Py.str_int (snd p) ++ " }," ++ Py.nl)
          (combine ks rs).
Proof.
  induction es as [|e es IH]; intros ks rs S R.
  - destruct ks; [| discriminate]. reflexivity.
  - destruct ks as [|k ks]; [discriminate |]. injection S as Sk S.
    inversion R as [| e' r es' rs' Rr R']; subst. cbn [map combine].
    rewrite (IH ks rs' S R'). f_equal.
    unfold EntranceActor.getEntryC. rewrite Sk, Rr. cbn [EntranceActor.fmt_index fst snd].
    now rewrite !append_assoc.
Qed.

(** The table that [new] returns, read off the dictionary of the loop. *)
Lemma entrance_new_ok (name : string) (t : SceneEntranceActors.t) :
  SceneEntranceActors.new name sceneObj transform headerIndex = Ok t ->
  SceneEntranceActors.name t = name
  /\ List.length (SceneEntranceActors.entries t)
     = List.length (spawn_indices headerIndex (entrance_markers sceneObj))
  /\ map EntranceActor.spawnIndex (SceneEntranceActors.entries t)
     = map Some (Py.range (List.length (SceneEntranceActors.entries t)))
  /\ Forall (fun e => exists r, EntranceActor.roomIndex e = Some r)
       (SceneEntranceActors.entries t).
Proof.
  unfold SceneEntranceActors.new. fold (entrance_markers sceneObj).
  destruct (SceneEntranceActors.collect _ _ _ _ _) as [d |] eqn:C; cbn [bind];
    [| discriminate].
  destruct (collect_items sceneObj transform headerIndex _ _ _ C) as (-> & F & _).
  cbn [app]. unfold SceneEntranceActors.finish.
  destruct (list_eq_dec _ _ _) as [E | _]; [| discriminate].
  intros [= <-]. cbn.
  pose proof (sorted_by_perm fst (items (entrance_markers sceneObj))) as P.
  assert (Forall (fun p => EntranceActor.spawnIndex (snd p) = Some (fst p)
                           /\ exists r, EntranceActor.roomIndex (snd p) = Some r)
            (Py.sorted_by fst (items (entrance_markers sceneObj)))) as Fs
    by (eapply Permutation_Forall; [symmetry; exact P | apply items_fields]).
  split; [reflexivity |]. split; [| split].
  - rewrite length_map, sorted_by_length, <- (items_keys _ F). now rewrite length_map.
  - rewrite length_map. unfold Py.range in E. rewrite <- E. clear - Fs.
    induction Fs as [|p l [Sp _] _ IH]; cbn; [reflexivity | now rewrite Sp, IH].
  - apply Forall_map. eapply Forall_impl; [| exact Fs]. now intros p [_ R].
Qed.

(** X10.  The spawn-list command of a table that [new] returns carries the
    number of exported entrance markers of the scene, and the name of the
    table unless that number is zero, in which case it carries [NULL]; the
    entrance-list command of the spawn table with the same entries agrees
    with it on [NULL]. *)
Theorem new_then_getCmd (name name' : string) (t : SceneEntranceActors.t) :
  SceneEntranceActors.new name sceneObj transform headerIndex = Ok t ->
  let n := List.length (filter (entrance_exported headerIndex)
                          (entrance_markers sceneObj)) in
  SceneEntranceActors.getCmd t
  = indent ++ "SCENE_CMD_SPAWN_LIST(" ++ Py.str_int (Z.of_nat n) ++ ", "
    ++ (if Nat.eqb n 0 then "NULL" else name) ++ ")," ++ Py.nl
  /\ SceneSpawns.getCmd (SceneSpawns.mk name' (SceneEntranceActors.entries t))
     = indent ++ "SCENE_CMD_ENTRANCE_LIST("
       ++ (if Nat.eqb n 0 then "NULL" else name') ++ ")," ++ Py.nl.
Proof.
  intros T n. destruct (entrance_new_ok name t T) as (Nm & L & _ & _).
  unfold spawn_indices in L. rewrite length_map in L. fold n in L.
  unfold SceneEntranceActors.getCmd, SceneSpawns.getCmd, Py.len.
  cbn [SceneSpawns.entries SceneSpawns.name]. rewrite L, Nm.
  destruct n as [|n]; [split; reflexivity |].
  replace (0 <? Z.of_nat (S n))%Z with true by (symmetry; apply Z.ltb_lt; lia).
  split; reflexivity.
Qed.

(** X11.  The rows of the spawn array of a table that [new] returns are
    numbered: the row at position [i] is [{ i, r },] with the index [r] of
    the room the marker is tied to, for [i] from 0 to the number of entries
    less one; no row prints a missing value. *)
Theorem new_then_spawn_rows (name name' : string) (t : SceneEntranceActors.t) :
  SceneEntranceActors.new name sceneObj transform headerIndex = Ok t ->
  exists rs : list Z,
    List.length rs = List.length (SceneEntranceActors.entries t)
    /\ source (SceneSpawns.getC (SceneSpawns.mk name' (SceneEntranceActors.entries t)))
       = ("Spawn " ++ name' ++ "[]" ++ " = {" ++ Py.nl)
         ++ (indent ++ "// { Spawn Actor List Index, Room Index }" ++ Py.nl)
         ++ Py.join ""
              (map (fun p => indent ++ "{ " ++ Py.str_int (fst p) ++ ", "
                             ++ Py.str_int (snd p) ++ " }," ++ Py.nl)
                   (combine (Py.range (List.length rs)) rs))
         ++ "};" ++ Py.nl ++ Py.nl.
Proof.
  intros T. destruct (entrance_new_ok name t T) as (_ & _ & S & R).
  destruct (Forall_exists_Forall2 _ _ R) as [rs R2].
  exists rs. pose proof (Forall2_length R2) as L.
  split; [now symmetry |].
  unfold SceneSpawns.getC. cbn [source SceneSpawns.entries SceneSpawns.name].
  rewrite <- L, (spawn_rows _ _ rs S R2). reflexivity.
Qed.

End EntranceText.

Lemma new_then_getCmd_witness :
  exists t,
    @SceneEntranceActors.new _ Sample.host "spawns" Sample.spawn_scene tt 0 = Ok t
    /\ @SceneEntranceActors.getCmd _ Sample.host t
       = "    SCENE_CMD_SPAWN_LIST(3, spawns)," ++ Py.nl
    /\ @SceneSpawns.getCmd _ Sample.host
         (SceneSpawns.mk "entrances" (SceneEntranceActors.entries t))
       = "    SCENE_CMD_ENTRANCE_LIST(entrances)," ++ Py.nl.
Proof.
  eexists. split; [vm_compute; reflexivity |].
  exact (@new_then_getCmd _ Sample.host Sample.spawn_scene tt 0 "spawns" "entrances"
           _ ltac:(vm_compute; reflexivity)).
Defined.

Lemma new_then_spawn_rows_witness :
  exists t,
    @SceneEntranceActors.new _ Sample.host "spawns" Sample.spawn_scene tt 0 = Ok t
    /\ exists rs : list Z,
         List.length rs = List.length (SceneEntranceActors.entries t)
         /\ source (@SceneSpawns.getC _ Sample.host
                      (SceneSpawns.mk "entrances" (SceneEntranceActors.entries t)))
            = ("Spawn " ++ "entrances" ++ "[]" ++ " = {" ++ Py.nl)
              ++ ("    " ++ "// { Spawn Actor List Index, Room Index }" ++ Py.nl)
              ++ Py.join ""
                   (map (fun p => "    " ++ "{ " ++ Py.str_int (fst p) ++ ", "
                                  ++ Py.str_int (snd p) ++ " }," ++ Py.nl)
                        (combine (Py.range (List.length rs)) rs))
              ++ "};" ++ Py.nl ++ Py.nl.
Proof.
  eexists. split; [vm_compute; reflexivity |].
  exact (@new_then_spawn_rows _ Sample.host Sample.spawn_scene tt 0 "spawns"
           "entrances" _ ltac:(vm_compute; reflexivity)).
Defined.

(** * The second grouping convention of [from_data] *)

Lemma strip_append (c : ascii) (s t : string) :
  strip c (s ++ t) = strip c s ++ strip c t.
Proof.
  induction s as [|a s IH]; cbn; [reflexivity |].
  destruct (Ascii.eqb a c); cbn; now rewrite IH.
Qed.

Lemma strip_absent (c : ascii) (s : string) :
  has_char c s = false -> strip c s = s.
Proof.
  induction s as [|a s IH]; cbn; [reflexivity |].
  intros N. apply orb_false_iff in N. destruct N as [-> N]. now rewrite IH.
Qed.

Lemma has_char_strip (c c' : ascii) (s : string) :
  has_char c s = false -> has_char c (strip c' s) = false.
Proof.
  induction s as [|a s IH]; cbn; [reflexivity |].
  intros N. apply orb_false_iff in N. destruct N as [Na N].
  destruct (Ascii.eqb a c'); cbn; [now apply IH | now rewrite Na, IH].
Qed.

Lemma split_go_nonempty (sep s : string) :
  forall skip cur, Py.split_go sep skip cur s <> [].
Proof.
  induction s as [|a s IH]; intros skip cur; cbn [Py.split_go]; [discriminate |].
  destruct skip; [| apply IH].
  destruct (String.prefix sep (String a s)); [discriminate | apply IH].
Qed.

(** [replace] of one character by nothing takes the character out. *)
Lemma replace_strip_go (c : ascii) (s : string) :
  forall cur, Py.join "" (Py.split_go (String c "") 0 cur s) = cur ++ strip c s.
Proof.
  unfold Py.join.
  induction s as [|a s IH]; intros cur; cbn [Py.split_go strip].
  - cbn. now rewrite append_nil_r.
  - cbn [String.prefix]. destruct (ascii_dec c a) as [<- | N].
    + rewrite prefix_nil, Ascii.eqb_refl. cbn [String.length Nat.pred].
      change (concat "" (cur :: Py.split_go (String c "") 0 "" s))
        with (match Py.split_go (String c "") 0 "" s with
              | [] => cur
              | _ :: _ => cur ++ "" ++ concat "" (Py.split_go (String c "") 0 "" s)
              end).
      specialize (IH ""). destruct (Py.split_go (String c "") 0 "" s) eqn:E.
      * now apply split_go_nonempty in E.
      * cbn [append]. now rewrite IH.
    + assert (Ascii.eqb a c = false) as ->
        by (apply Ascii.eqb_neq; congruence).
      rewrite IH. now rewrite append_assoc.
Qed.

Lemma replace_strip (c : ascii) (s : string) :
  Py.replace (String c "") "" s = strip c s.
Proof. unfold Py.replace, Py.split. now rewrite replace_strip_go. Qed.

Lemma substring_append_l (s t : string) :
  String.substring 0 (String.length s) (s ++ t) = s.
Proof.
  induction s as [|a s IH]; cbn; [now destruct t | now rewrite IH].
Qed.

Lemma substring_append_r (s t : string) (m : nat) :
  String.substring (String.length s) m (s ++ t) = String.substring 0 m t.
Proof. induction s as [|a s IH]; cbn; [reflexivity | exact IH]. Qed.

Lemma substring_all (s : string) : String.substring 0 (String.length s) s = s.
Proof.
  rewrite <- (append_nil_r s) at 2. rewrite substring_append_l.
  reflexivity.
Qed.

Lemma removeprefix_append (p s : string) : Py.removeprefix p (p ++ s) = s.
Proof.
  unfold Py.removeprefix. rewrite prefix_append, length_append.
  replace (String.length p + String.length s - String.length p)%nat
    with (String.length s) by lia.
  rewrite substring_append_r. apply substring_all.
Qed.

Lemma removesuffix_append (x s : string) : Py.removesuffix x (s ++ x) = s.
Proof.
  unfold Py.removesuffix, Py.endswith. rewrite length_append.
  replace (String.length s + String.length x - String.length x)%nat
    with (String.length s) by lia.
  rewrite substring_append_r, substring_all, String.eqb_refl.
  replace (String.length x <=? String.length s + String.length x)%nat with true
    by (symmetry; apply Nat.leb_le; lia).
  cbn [andb]. apply substring_append_l.
Qed.

(** *** Splitting at [",},{"] *)

Lemma split_nested_skip (rest cur : string) :
  Py.split_go ",},{" 0 cur (",},{" ++ rest)
  = cur :: Py.split_go ",},{" 0 "" rest.
Proof.
  pose proof (prefix_append ",},{" rest) as P.
  cbn [append] in *. cbn [Py.split_go]. rewrite P. reflexivity.
Qed.

Lemma prefix_nested_false (a : ascii) (s : string) :
  (Ascii.eqb a "," = false
   \/ match s with
      | EmptyString => True
      | String a' _ => Ascii.eqb a' "}" = false
      end) ->
  String.prefix ",},{" (String a s) = false.
Proof.
  intros [N | N].
  - now apply prefix_other.
  - cbn [String.prefix]. destruct (ascii_dec "," a); [| reflexivity].
    destruct s as [|a' s]; [reflexivity |]. cbn [String.prefix].
    destruct (ascii_dec "}" a') as [<- | _]; [discriminate | reflexivity].
Qed.

Lemma split_nested_field (body rest : string) :
  forall cur b,
    no_comma_brace b body = true ->
    Py.split_go ",},{" 0 cur (body ++ ",},{" ++ rest)
    = (cur ++ body) :: Py.split_go ",},{" 0 "" rest.
Proof.
  induction body as [|a body IH]; intros cur b N.
  - rewrite append_nil_r. apply split_nested_skip.
  - cbn [no_comma_brace] in N.
    destruct (b && Ascii.eqb a "}"); [discriminate |].
    cbn [append Py.split_go]. rewrite prefix_nested_false.
    + rewrite (IH _ _ N). now rewrite append_assoc.
    + destruct (Ascii.eqb a ",") eqn:E; [right | now left].
      destruct body as [|a' body]; cbn [append]; [reflexivity |].
      cbn [no_comma_brace andb] in N. now destruct (Ascii.eqb a' "}").
Qed.

Lemma split_nested_last (body : string) :
  forall cur b,
    no_comma_brace b body = true ->
    Py.split_go ",},{" 0 cur body = [cur ++ body].
Proof.
  induction body as [|a body IH]; intros cur b N.
  - cbn. now rewrite append_nil_r.
  - cbn [no_comma_brace] in N.
    destruct (b && Ascii.eqb a "}"); [discriminate |].
    cbn [Py.split_go]. rewrite prefix_nested_false.
    + rewrite (IH _ _ N). now rewrite append_assoc.
    + destruct (Ascii.eqb a ",") eqn:E; [right | now left].
      destruct body as [|a' body]; [exact I |].
      cbn [no_comma_brace andb] in N. now destruct (Ascii.eqb a' "}").
Qed.

Lemma split_nested_join (bodies : list string) :
  bodies <> [] ->
  Forall (fun body => no_comma_brace false body = true) bodies ->
  Py.split ",},{" (Py.join ",},{" bodies) = bodies.
Proof.
  intros NE F. unfold Py.split, Py.join.
  induction F as [|body l Hb Hl IH]; [contradiction |].
  destruct l as [|body' l].
  - cbn [concat]. now rewrite (split_nested_last body "" false Hb).
  - change (concat ",},{" (body :: body' :: l))
      with (body ++ ",},{" ++ concat ",},{" (body' :: l)).
    rewrite (split_nested_field body _ "" false Hb). cbn [append].
    f_equal. apply IH. discriminate.
Qed.

(** A plain field, with whatever in front of it, leaves the scan where a
    text that starts after something else than a comma would. *)
Lemma scan_plain (f rest : string) (b : bool) :
  forallb plain_field [f] = true ->
  no_comma_brace b (f ++ rest) = no_comma_brace false rest.
Proof.
  cbn [forallb]. rewrite andb_true_r. unfold plain_field.
  rewrite !andb_true_iff, !negb_true_iff. intros [[[NE Nc] _] Nb].
  destruct f as [|a f]; [discriminate |]. clear NE.
  revert a b Nc Nb. induction f as [|a' f IH]; intros a b Nc Nb.
  - cbn in *. apply orb_false_iff in Nc. apply orb_false_iff in Nb.
    destruct Nc as [-> _], Nb as [-> _]. now rewrite andb_false_r.
  - cbn [has_char] in Nc, Nb.
    apply orb_false_iff in Nc. apply orb_false_iff in Nb.
    destruct Nc as [Ec Nc], Nb as [Eb Nb].
    cbn [append no_comma_brace]. rewrite Ec, Eb, andb_false_r.
    apply (IH a' false Nc Nb).
Qed.

(** *** One nested row *)

Section TenFields.
Variables f0 f1 f2 f3 f4 f5 f6 f7 f8 f9 : string.
Hypothesis plain :
  forallb plain_field [f0; f1; f2; f3; f4; f5; f6; f7; f8; f9] = true.

Let nested : string :=
  "{" ++ Py.join "," [f0; f1; f2; f3] ++ "}," ++ f4
  ++ ",{" ++ Py.join "," [f5; f6; f7] ++ "}," ++ f8 ++ "," ++ f9.

Lemma ten_plain :
  forall f, In f [f0; f1; f2; f3; f4; f5; f6; f7; f8; f9] ->
            forallb plain_field [f] = true.
Proof.
  intros f I. cbn [forallb]. rewrite andb_true_r.
  rewrite forallb_forall in plain. now apply plain.
Qed.

Lemma nested_scan : no_comma_brace false nested = true.
Proof.
  unfold nested, Py.join. cbn [concat].
  rewrite <- (append_nil_r f9).
  repeat (rewrite !append_assoc; cbn [append]).
  cbn [no_comma_brace Ascii.eqb Bool.eqb andb].
  repeat (rewrite scan_plain by (apply ten_plain; cbn; tauto);
          cbn [append no_comma_brace Ascii.eqb Bool.eqb andb]).
  reflexivity.
Qed.

Lemma nested_strip :
  strip "}" (strip "{" nested) = Py.join "," [f0; f1; f2; f3; f4; f5; f6; f7; f8; f9].
Proof.
  destruct (plain_fields _ plain) as (_ & _ & F2 & F3).
  rewrite Forall_forall in F2, F3.
  unfold nested, Py.join. cbn [concat].
  repeat (rewrite !append_assoc; cbn [append]).
  repeat (rewrite ?strip_append; cbn [strip Ascii.eqb Bool.eqb append]).
  rewrite !(strip_absent "{") by (apply F2; cbn; tauto).
  repeat (rewrite ?strip_append; cbn [strip Ascii.eqb Bool.eqb append]).
  rewrite !(strip_absent "}") by (apply F3; cbn; tauto).
  repeat (rewrite !append_assoc; cbn [append]). reflexivity.
Qed.

End TenFields.

(** *** The table *)

Section Nested.
Context {B : Blender} {H : Host}.

Lemma readable_fields (a : TransitionActor.t) :
  readable a ->
  exists f0 f1 f2 f3 f4 f5 f6 f7 f8 f9,
    row_fields a = [f0; f1; f2; f3; f4; f5; f6; f7; f8; f9]
    /\ nested_body a
       = "{" ++ Py.join "," [f0; f1; f2; f3] ++ "}," ++ f4
         ++ ",{" ++ Py.join "," [f5; f6; f7] ++ "}," ++ f8 ++ "," ++ f9.
Proof.
  intros (rf & rt & cf & cb & x & y & z & r & _ & _ & _ & _ & Hp & _).
  unfold row_fields, nested_body. rewrite Hp. cbn [map app].
  do 10 eexists. split; reflexivity.
Qed.

Lemma parse_nested_body (a : TransitionActor.t) :
  readable a ->
  SceneTransitionActors.parse_entry (nested_body a)
  = SceneTransitionActors.parse_fields (row_fields a)
  /\ no_comma_brace false (nested_body a) = true
  /\ String.eqb (nested_body a) "" = false.
Proof.
  intros R. pose proof (readable_plain a R) as Pl.
  destruct (readable_fields a R)
    as (f0 & f1 & f2 & f3 & f4 & f5 & f6 & f7 & f8 & f9 & E & ->).
  rewrite E in *. split; [| split; [now apply nested_scan | reflexivity]].
  destruct (plain_fields _ Pl) as (F0 & F1 & _ & _).
  unfold SceneTransitionActors.parse_entry.
  rewrite !replace_strip, (nested_strip _ _ _ _ _ _ _ _ _ _ Pl).
  rewrite split_join_comma; [| discriminate | exact F1].
  unfold Py.remove_empty. now rewrite remove_empty_loop_plain.
Qed.

Lemma nested_table_rows (a : TransitionActor.t) (es : list TransitionActor.t) :
  nested_table (a :: es)
  = "{" ++ (Py.join ",},{" (map nested_body (a :: es)) ++ ",},").
Proof.
  unfold nested_table, Py.join. revert a.
  induction es as [|a' es IH]; intros a.
  - cbn [map concat]. unfold nested_row. cbn [append]. reflexivity.
  - change (concat "" (map nested_row (a :: a' :: es)))
      with (nested_row a ++ "" ++ concat "" (map nested_row (a' :: es))).
    rewrite IH.
    change (concat ",},{" (map nested_body (a :: a' :: es)))
      with (nested_body a ++ ",},{" ++ concat ",},{" (map nested_body (a' :: es))).
    unfold nested_row. cbn [append].
    repeat (rewrite !append_assoc; cbn [append]). reflexivity.
Qed.

Lemma mapM_nested_bodies (es : list TransitionActor.t) :
  Forall readable es ->
  exists es',
    mapM SceneTransitionActors.parse_entry (map nested_body es) = Ok es'
    /\ Forall2 read_back es es'.
Proof.
  induction 1 as [|a es Ha _ (es' & E & F)]; cbn [map mapM].
  - exists []. split; [reflexivity | constructor].
  - destruct (parse_fields_readable a Ha) as (a' & P & R).
    rewrite (proj1 (parse_nested_body a Ha)), P. cbn [bind].
    rewrite E. cbn [bind].
    exists (a' :: es'). split; [reflexivity | now constructor].
Qed.

(** X12.  The text of a table in the nested row layout, one row
    [{{roomFrom,cameraFront,roomTo,cameraBack},id,{x,y,z},rot,params,},] per
    entry with the values that [getEntryC] prints, is read by [from_data]
    under the convention [not_zapd_assets = True] into one entry per row,
    with the same fields as the flat layout gives under the other
    convention. *)
Theorem from_data_nested_table (es : list TransitionActor.t) :
  Forall readable es ->
  exists es',
    SceneTransitionActors.from_data (nested_table es) true
    = Ok (SceneTransitionActors.mk "(unset)" es')
    /\ Forall2 read_back es es'.
Proof.
  intros R. destruct (mapM_nested_bodies es R) as (es' & E & F).
  exists es'. split; [| exact F].
  destruct es as [|a es].
  - cbn in E. injection E as <-. reflexivity.
  - unfold SceneTransitionActors.from_data, SceneTransitionActors.split_entries.
    rewrite nested_table_rows.
    rewrite (removeprefix_append "{"), removesuffix_append.
    rewrite split_nested_join.
    + assert (filter (fun entry => negb (String.eqb entry ""))
                (map nested_body (a :: es)) = map nested_body (a :: es)) as ->.
      { clear - R. induction R as [|b l Hb _ IH]; [reflexivity |].
        cbn [map filter].
        rewrite (proj2 (proj2 (parse_nested_body b Hb))). cbn [negb].
        now rewrite IH. }
      rewrite E. reflexivity.
    + discriminate.
    + apply Forall_map. eapply Forall_impl; [| exact R].
      intros b Hb. apply (parse_nested_body b Hb).
Qed.

End Nested.

Lemma from_data_nested_table_witness :
  nested_table (SceneTransitionActors.entries Sample.two_room_table)
  = "{{0,0x00,0,0xFF},ACTOR_EN_DOOR,{4,2,-4},DEG_TO_BINANG(90.000),0x0001,},"
    ++ "{{1,0x00,1,0xFF},ACTOR_EN_DOOR,{3,2,-4},DEG_TO_BINANG(90.000),0x0001,},"
  /\ exists es',
       @SceneTransitionActors.from_data _ Sample.host
         (nested_table (SceneTransitionActors.entries Sample.two_room_table)) true
       = Ok (SceneTransitionActors.mk "(unset)" es')
       /\ Forall2 (read_back (H := Sample.host))
            (SceneTransitionActors.entries Sample.two_room_table) es'.
Proof.
  split; [reflexivity |].
  apply (@from_data_nested_table _ Sample.host).
  repeat constructor; unfold readable; do 8 eexists; repeat split; reflexivity.
Defined.

(** * Actor ids outside the actor table, and the transition command *)

Section UnknownActor.
Context {B : Blender} {H : Host}.
Variables (sceneObj : Object) (transform : Matrix) (headerIndex : Z).

Notation actorToRoom := (SceneTransitionActors.actorToRoom_of (rooms sceneObj)).

Lemma actor_name_unknown (actorProp : OOTActorProperty) :
  actor_id actorProp <> "Custom" -> actorsByID (actor_id actorProp) = None ->
  actor_name actorProp = Err KeyError.
Proof.
  intros N U. unfold actor_name. rewrite U.
  now destruct (String.eqb_spec (actor_id actorProp) "Custom").
Qed.

(** X13.  An exported marker whose actor id is neither ["Custom"] nor a key
    of the actor table stops the build: for an entrance marker the entry
    raises [KeyError], even before its tied room is looked at; for a
    transition marker that is not missing a room of a room-crossing, the
    entry raises [KeyError] as well.  In both cases [new] returns no
    table. *)
Theorem unknown_actor_id (name : string) :
  (forall obj,
      In obj (entrance_markers sceneObj) ->
      entrance_exported headerIndex obj = true ->
      actor_id (entrance_actor (ootEntranceProperty obj)) <> "Custom" ->
      actorsByID (actor_id (entrance_actor (ootEntranceProperty obj))) = None ->
      SceneEntranceActors.new_entry sceneObj transform headerIndex obj = Err KeyError
      /\ exists e, SceneEntranceActors.new name sceneObj transform headerIndex = Err e)
  /\ (forall obj,
      In obj (transition_markers sceneObj) ->
      transition_exported headerIndex obj = true ->
      actor_id (actor (ootTransitionActorProperty obj)) <> "Custom" ->
      actorsByID (actor_id (actor (ootTransitionActorProperty obj))) = None ->
      (bpy.isRoomTransition (ootTransitionActorProperty obj) = true ->
       fromRoom (ootTransitionActorProperty obj) <> None
       /\ toRoom (ootTransitionActorProperty obj) <> None) ->
      SceneTransitionActors.new_entry actorToRoom sceneObj transform headerIndex obj
      = Err KeyError
      /\ exists e, SceneTransitionActors.new name sceneObj transform headerIndex = Err e).
Proof.
  split; intros obj I X N U.
  - assert (SceneEntranceActors.new_entry sceneObj transform headerIndex obj
            = Err KeyError) as E.
    { unfold SceneEntranceActors.new_entry. unfold entrance_exported in X.
      rewrite X.
      destruct (getConvertedTransform transform sceneObj obj true) as [pos rot].
      now rewrite (actor_name_unknown _ N U). }
    split; [exact E |].
    unfold SceneEntranceActors.new. fold (entrance_markers sceneObj).
    destruct (collect_in_err sceneObj transform headerIndex _ _ _ I E []) as [e C].
    rewrite C. now exists e.
  - intros R.
    assert (SceneTransitionActors.new_entry actorToRoom sceneObj transform
              headerIndex obj = Err KeyError) as E.
    { unfold SceneTransitionActors.new_entry. unfold transition_exported in X.
      rewrite X.
      destruct (getConvertedTransform transform sceneObj obj true) as [pos rot].
      destruct (bpy.isRoomTransition (ootTransitionActorProperty obj)).
      - destruct (R eq_refl) as [Rf Rt].
        destruct (fromRoom _); [| contradiction].
        destruct (toRoom _); [| contradiction].
        cbn [bind]. now rewrite (actor_name_unknown _ N U).
      - unfold SceneTransitionActors.owning_room_index.
        destruct (Py.dict_get _ _ _); cbn [bind]; [| reflexivity].
        now rewrite (actor_name_unknown _ N U). }
    split; [exact E |].
    unfold SceneTransitionActors.new.
    fold (rooms sceneObj). fold (transition_markers sceneObj).
    destruct (SceneTransitionActors.sort_by_room _ _) as [sorted | e] eqn:S;
      cbn [bind]; [| now exists e].
    destruct (sort_by_room_ok _ _ _ S) as (pairs & -> & _ & _ & P).
    assert (In obj (map snd pairs)) as Ip
      by (eapply Permutation_in; [symmetry; exact P | exact I]).
    destruct (new_loop_in_err actorToRoom sceneObj transform headerIndex
                _ _ _ Ip E) as [e L].
    rewrite L. now exists e.
Qed.

(** X14.  The transition-list command of a table that [new] returns carries
    the number of exported transition markers of the scene and the name of
    the table, also when that number is zero: there is no [NULL] for a
    transition table. *)
Theorem new_then_transition_getCmd (name : string) (t : SceneTransitionActors.t) :
  SceneTransitionActors.new name sceneObj transform headerIndex = Ok t ->
  SceneTransitionActors.getCmd t
  = indent ++ "SCENE_CMD_TRANSITION_ACTOR_LIST("
    ++ Py.str_int
         (Z.of_nat (List.length (filter (transition_exported headerIndex)
                                   (transition_markers sceneObj))))
    ++ ", " ++ name ++ ")," ++ Py.nl.
Proof.
  intros T. destruct (transitions_new_ok _ _ _ name t T) as (pairs & _ & _ & P & F).
  assert (SceneTransitionActors.name t = name) as Nm.
  { unfold SceneTransitionActors.new in T.
    destruct (SceneTransitionActors.sort_by_room _ _); cbn [bind] in T;
      [| discriminate].
    destruct (SceneTransitionActors.new_loop _ _ _ _ _); cbn [bind] in T;
      [| discriminate].
    now injection T as <-. }
  unfold SceneTransitionActors.getCmd, Py.len. rewrite Nm.
  rewrite <- (Forall2_length F), <- (Permutation_length P), length_map.
  reflexivity.
Qed.

End UnknownActor.

Lemma unknown_actor_id_witness :
  (@SceneEntranceActors.new_entry _ Sample.host Sample.unknown_scene tt 0
     Sample.unknown_spawn = Err KeyError
   /\ exists e,
        @SceneEntranceActors.new _ Sample.host "spawns" Sample.unknown_scene tt 0
        = Err e)
  /\ (@SceneTransitionActors.new_entry _ Sample.host
        (SceneTransitionActors.actorToRoom_of (rooms Sample.unknown_scene))
        Sample.unknown_scene tt 0 Sample.unknown_door = Err KeyError
      /\ exists e,
           @SceneTransitionActors.new _ Sample.host "doors" Sample.unknown_scene tt 0
           = Err e).
Proof.
  split.
  - apply (proj1 (@unknown_actor_id _ Sample.host Sample.unknown_scene tt 0 "spawns"));
      [in_list | reflexivity | discriminate | reflexivity].
  - apply (proj2 (@unknown_actor_id _ Sample.host Sample.unknown_scene tt 0 "doors"));
      [in_list | reflexivity | discriminate | reflexivity | discriminate].
Defined.

Lemma new_then_transition_getCmd_witness :
  @SceneTransitionActors.getCmd _ Sample.host Sample.two_room_table
  = "    SCENE_CMD_TRANSITION_ACTOR_LIST(2, doors)," ++ Py.nl.
Proof.
  exact (@new_then_transition_getCmd _ Sample.host Sample.two_room_scene tt 0 "doors"
           Sample.two_room_table ltac:(vm_compute; reflexivity)).
Defined.

(** * The rotation text keeps the rotation *)




Local Notation millis r := (Py.round (inject_Z r * (180 # 32768) * 1000)).

















Section RotationText.
Context {B : Blender} {H : Host}.
Variables (sceneObj : Object) (transform : Matrix) (headerIndex : Z).

Notation rotation obj := (snd (getConvertedTransform transform sceneObj obj true)).



End RotationText.

